(** * bom-render persistence layer

    A shallow embedding of [backend/models.py] (record access over a
    PostgreSQL store through psycopg2) and of
    [backend/services/file_storage_service.py] (artifact files on disk).

    The Python functions are state-and-exception computations.  What they
    call but do not define is modelled next to them: the part of PostgreSQL
    that executes the statements of [models.py] ([Sql]), the psycopg2
    connection and cursor calls ([Psycopg2]), the POSIX file calls of
    [os], [open] and [shutil] ([Posix]), and binary64 arithmetic with
    Python's [round] ([Float]). *)

From Stdlib Require Import ZArith String Ascii Strings.Byte List SpecFloat Lia.
From stdpp Require Import base option gmap strings list sorting.

Local Open Scope Z_scope.

(** ** Python values *)

(** The values that cross the database boundary.  psycopg2 adapts [None] to
    [NULL], [str] to a text literal, [int] to an integer literal and
    [datetime] to a timestamp, and back; one type serves both sides.
    Timestamps are counted in microseconds. *)
Inductive value : Type :=
| VNone
| VStr (s : string)
| VInt (z : Z)
| VFloat (f : spec_float)
| VTime (t : Z).

#[global] Instance spec_float_eq_dec : EqDecision spec_float.
Proof. solve_decision. Defined.

#[global] Instance value_eq_dec : EqDecision value.
Proof. solve_decision. Defined.

(** Truth value testing, as [if x:] does it. *)
Definition truthy (v : value) : bool :=
  match v with
  | VNone => false
  | VStr s => match s with EmptyString => false | String _ _ => true end
  | VInt z => negb (z =? 0)
  | VFloat f => match f with S754_zero _ => false | _ => true end
  | VTime _ => true
  end.

(** [x is not None] *)
Definition is_not_None (v : value) : bool :=
  match v with VNone => false | _ => true end.

(** A [dict] with string keys: the items in insertion order, each key
    once. *)
Abbreviation dict := (list (string * value)).

(** [d.get(k)] *)
Fixpoint py_get (d : dict) (k : string) : option value :=
  match d with
  | [] => None
  | (k', v) :: d' => if String.eqb k' k then Some v else py_get d' k
  end.

(** [d[k] = v]: a key that is there keeps its place. *)
Fixpoint py_set (d : dict) (k : string) (v : value) : dict :=
  match d with
  | [] => [(k, v)]
  | (k', v') :: d' =>
      if String.eqb k' k then (k', v) :: d' else (k', v') :: py_set d' k v
  end.

(** [dict(pairs)] keeps the last value of a repeated key. *)
Definition py_dict (pairs : list (string * value)) : dict :=
  fold_left (fun d kv => py_set d kv.1 kv.2) pairs [].

(** [zip(a, b)] stops at the shorter argument. *)
Definition py_zip {A B : Type} (a : list A) (b : list B) : list (A * B) :=
  List.combine a b.

(** ** Exceptions *)

Inductive exn : Type :=
(* psycopg2.errors, raised by the server *)
| PgSyntaxError
| PgUndefinedTable (t : string)
| PgUndefinedColumn (c : string)
| PgNotNullViolation (c : string)
| PgUniqueViolation (t : string)
| PgInvalidRowCountInLimitClause
| PgInvalidEscapeSequence
| PgDatatypeMismatch
(* raised by psycopg2 while merging the arguments into the statement *)
| PgArgumentsError
(* built-in exceptions; [FileNameTooLong] is [OSError] with ENAMETOOLONG *)
| NameError (name : string)
| TypeError
| IndexError
| ValueError
| AttributeError
| ZeroDivisionError
| FileNotFoundError
| FileExistsError
| NotADirectoryError
| IsADirectoryError
| FileNameTooLong
| RuntimeError (message : string) (cause : exn).

#[global] Instance exn_eq_dec : EqDecision exn.
Proof. solve_decision. Defined.

(** ** Computations with state and exceptions *)

Inductive result (A : Type) : Type :=
| Ok (a : A)
| Raise (e : exn).
Arguments Ok {A} a.
Arguments Raise {A} e.

Definition SE (S A : Type) : Type := S -> result A * S.

Definition ret {S A : Type} (a : A) : SE S A := fun s => (Ok a, s).

Definition raise {S A : Type} (e : exn) : SE S A := fun s => (Raise e, s).

Definition bind {S A B : Type} (m : SE S A) (k : A -> SE S B) : SE S B :=
  fun s =>
    match m s with
    | (Ok a, s') => k a s'
    | (Raise e, s') => (Raise e, s')
    end.

(** [try: m except Exception as e: h e] *)
Definition try_except {S A : Type} (m : SE S A) (h : exn -> SE S A) : SE S A :=
  fun s =>
    match m s with
    | (Ok a, s') => (Ok a, s')
    | (Raise e, s') => h e s'
    end.

Declare Scope se_scope.
Delimit Scope se_scope with se.
Notation "x <~ m ;; k" := (bind m (fun x => k))
  (at level 100, m at next level, right associativity) : se_scope.
Notation "m ;;; k" := (bind m (fun _ => k))
  (at level 100, right associativity) : se_scope.
Local Open Scope se_scope.


(** ** Numbers: binary64 and [round] *)

Module Float.

Definition prec : Z := 53.
Definition emax : Z := 1024.

(** [float(z)], rounded to nearest, ties to even. *)
Definition of_int (z : Z) : spec_float := binary_normalize prec emax z 0 false.

Definition mul : spec_float -> spec_float -> spec_float := SFmul prec emax.
Definition div : spec_float -> spec_float -> spec_float := SFdiv prec emax.

(** [a / b] on two [int]s, [b] not zero: the quotient of the integers,
    rounded once. *)
Definition int_truediv (a b : Z) : spec_float :=
  let neg := xorb (a <? 0) (b <? 0) in
  if a =? 0 then S754_zero neg
  else
    let '(m, e, l) := SFdiv_core_binary prec emax (Z.abs a) 0 (Z.abs b) 0 in
    binary_round_aux prec emax neg m e l.

(** The integer nearest to [n / d] ([d] positive), ties to even. *)
Definition round_half_even (n d : Z) : Z :=
  let q := n / d in
  match Z.compare (2 * (n mod d)) d with
  | Lt => q
  | Gt => q + 1
  | Eq => if Z.even q then q else q + 1
  end.

(** [round(x, ndigits)] for a [float]: the decimal with [ndigits] places
    nearest to the exact value of [x] (ties to even), as a [float] again.
    The decimal's digits must fit a binary64 significand, which holds for
    every [x] below 2^49 in magnitude with one place. *)
Definition round_float (x : spec_float) (ndigits : nat) : spec_float :=
  match x with
  | S754_finite s m e =>
      let scale := 10 ^ Z.of_nat ndigits in
      let t :=
        if 0 <=? e then scale * Z.pos m * 2 ^ e
        else round_half_even (scale * Z.pos m) (2 ^ (- e)) in
      if t =? 0 then S754_zero s
      else div (of_int (if s then - t else t)) (of_int scale)
  | _ => x
  end.

(** The arithmetic of [get_stats] on Python values. *)

Definition py_gt (a b : value) : result bool :=
  match a, b with
  | VInt x, VInt y => Ok (y <? x)
  | _, _ => Raise TypeError
  end.

Definition py_truediv (a b : value) : result value :=
  match a, b with
  | VInt x, VInt y =>
      if y =? 0 then Raise ZeroDivisionError else Ok (VFloat (int_truediv x y))
  | _, _ => Raise TypeError
  end.

Definition py_mul (a b : value) : result value :=
  match a, b with
  | VInt x, VInt y => Ok (VInt (x * y))
  | VFloat x, VInt y => Ok (VFloat (mul x (of_int y)))
  | VInt x, VFloat y => Ok (VFloat (mul (of_int x) y))
  | VFloat x, VFloat y => Ok (VFloat (mul x y))
  | _, _ => Raise TypeError
  end.

(** [round(v, ndigits)]; an [int] is returned as it is. *)
Definition py_round (v : value) (ndigits : nat) : result value :=
  match v with
  | VInt z => Ok (VInt z)
  | VFloat x => Ok (VFloat (round_float x ndigits))
  | _ => Raise TypeError
  end.

End Float.

(** ** PostgreSQL, as far as [models.py] uses it *)

Module Sql.

Inductive coltype : Type := TEXT | INTEGER | TIMESTAMP | SERIAL.

Inductive coldefault : Type :=
| NoDefault
| Default (v : value)
| DefaultCurrentTimestamp.

Record column : Type := Column {
  col_name : string;
  col_type : coltype;
  col_primary_key : bool;
  col_not_null : bool;
  col_default : coldefault
}.

Abbreviation row := (list value).

(** A table: its columns, its rows in heap order, and the next value of
    the sequence behind its SERIAL column. *)
Record table : Type := Table {
  tbl_columns : list column;
  tbl_rows : list row;
  tbl_serial : Z
}.

Abbreviation database := (gmap string table).

(** *** Statements *)

(** A value position of a statement: a [%s] placeholder, a literal, or
    [CURRENT_TIMESTAMP]. *)
Inductive operand : Type :=
| Placeholder
| Lit (v : value)
| CURRENT_TIMESTAMP.

Inductive cond : Type :=
| Eq (c : string) (o : operand)           (* c = o *)
| ILike (c : string) (o : operand)        (* c ILIKE o *)
| IsNotNull (c : string)                  (* c IS NOT NULL *)
| In (c : string) (os : list operand)     (* c IN (o, ..., o) *)
| And (a b : cond)
| Or (a b : cond).

Inductive count_arg : Type :=
| CountStar
| CountDistinct (c : string).

Inductive stmt : Type :=
| CreateTableIfNotExists (t : string) (cols : list column)
| InsertInto (t : string) (cols : list string) (vals : list operand)
| Update (t : string) (sets : list (string * operand)) (where_ : cond)
| SelectAll (t : string) (where_ : option cond)
    (order_by_desc : option string) (limit : option operand)
| SelectCount (arg : count_arg) (t : string) (where_ : option cond).

(** *** Merging the arguments into a statement

    psycopg2 replaces the placeholders, in the order of the statement's
    text, by the adapted arguments before the statement is sent. *)

Definition bind_operand (o : operand) (ps : list value)
  : option (operand * list value) :=
  match o with
  | Placeholder =>
      match ps with
      | p :: ps' => Some (Lit p, ps')
      | [] => None
      end
  | _ => Some (o, ps)
  end.

Fixpoint bind_operands (os : list operand) (ps : list value)
  : option (list operand * list value) :=
  match os with
  | [] => Some ([], ps)
  | o :: os' =>
      match bind_operand o ps with
      | Some (o', ps') =>
          match bind_operands os' ps' with
          | Some (os'', ps'') => Some (o' :: os'', ps'')
          | None => None
          end
      | None => None
      end
  end.

Fixpoint bind_cond (c : cond) (ps : list value) : option (cond * list value) :=
  match c with
  | Eq n o =>
      match bind_operand o ps with
      | Some (o', ps') => Some (Eq n o', ps')
      | None => None
      end
  | ILike n o =>
      match bind_operand o ps with
      | Some (o', ps') => Some (ILike n o', ps')
      | None => None
      end
  | IsNotNull n => Some (IsNotNull n, ps)
  | In n os =>
      match bind_operands os ps with
      | Some (os', ps') => Some (In n os', ps')
      | None => None
      end
  | And a b =>
      match bind_cond a ps with
      | Some (a', ps') =>
          match bind_cond b ps' with
          | Some (b', ps'') => Some (And a' b', ps'')
          | None => None
          end
      | None => None
      end
  | Or a b =>
      match bind_cond a ps with
      | Some (a', ps') =>
          match bind_cond b ps' with
          | Some (b', ps'') => Some (Or a' b', ps'')
          | None => None
          end
      | None => None
      end
  end.

Definition bind_opt_cond (c : option cond) (ps : list value)
  : option (option cond * list value) :=
  match c with
  | None => Some (None, ps)
  | Some c =>
      match bind_cond c ps with
      | Some (c', ps') => Some (Some c', ps')
      | None => None
      end
  end.

Fixpoint bind_sets (sets : list (string * operand)) (ps : list value)
  : option (list (string * operand) * list value) :=
  match sets with
  | [] => Some ([], ps)
  | (n, o) :: sets' =>
      match bind_operand o ps with
      | Some (o', ps') =>
          match bind_sets sets' ps' with
          | Some (sets'', ps'') => Some ((n, o') :: sets'', ps'')
          | None => None
          end
      | None => None
      end
  end.

Definition bind_stmt (q : stmt) (ps : list value) : option (stmt * list value) :=
  match q with
  | CreateTableIfNotExists _ _ => Some (q, ps)
  | InsertInto t cols vals =>
      match bind_operands vals ps with
      | Some (vals', ps') => Some (InsertInto t cols vals', ps')
      | None => None
      end
  | Update t sets w =>
      match bind_sets sets ps with
      | Some (sets', ps') =>
          match bind_cond w ps' with
          | Some (w', ps'') => Some (Update t sets' w', ps'')
          | None => None
          end
      | None => None
      end
  | SelectAll t w o l =>
      match bind_opt_cond w ps with
      | Some (w', ps') =>
          match l with
          | None => Some (SelectAll t w' o None, ps')
          | Some l =>
              match bind_operand l ps' with
              | Some (l', ps'') => Some (SelectAll t w' o (Some l'), ps'')
              | None => None
              end
          end
      | None => None
      end
  | SelectCount a t w =>
      match bind_opt_cond w ps with
      | Some (w', ps') => Some (SelectCount a t w', ps')
      | None => None
      end
  end.

(** Too few or too many arguments make psycopg2 raise before anything is
    sent. *)
Definition mogrify (q : stmt) (ps : list value) : option stmt :=
  match bind_stmt q ps with
  | Some (q', []) => Some q'
  | _ => None
  end.

(** *** Reading and writing cells *)

Fixpoint col_index (cols : list column) (n : string) : option nat :=
  match cols with
  | [] => None
  | c :: cs =>
      if String.eqb (col_name c) n then Some 0%nat
      else S <$> col_index cs n
  end.

Definition has_column (cols : list column) (n : string) : bool :=
  match col_index cols n with Some _ => true | None => false end.

Definition cell (cols : list column) (r : row) (n : string) : value :=
  match col_index cols n with
  | Some i => default VNone (r !! i)
  | None => VNone
  end.

Definition set_cell (cols : list column) (r : row) (n : string) (v : value) : row :=
  match col_index cols n with
  | Some i => <[i := v]> r
  | None => r
  end.

(** *** LIKE patterns

    [%] stands for any sequence of characters, [_] for any one character,
    and a backslash makes the next character stand for itself.  ILIKE
    compares without regard to case (of ASCII letters here). *)

Inductive pat_item : Type :=
| PAny
| POne
| PChar (c : ascii).

(** [None]: the pattern ends with the escape character. *)
Fixpoint parse_like (p : list ascii) : option (list pat_item) :=
  match p with
  | [] => Some []
  | c :: p' =>
      if Ascii.eqb c "\" then
        match p' with
        | [] => None
        | d :: p'' => cons (PChar d) <$> parse_like p''
        end
      else if Ascii.eqb c "%" then cons PAny <$> parse_like p'
      else if Ascii.eqb c "_" then cons POne <$> parse_like p'
      else cons (PChar c) <$> parse_like p'
  end.

Definition lower (c : ascii) : ascii :=
  let n := N_of_ascii c in
  if ((65 <=? n) && (n <=? 90))%N then ascii_of_N (n + 32) else c.

Definition ci_eqb (c d : ascii) : bool := Ascii.eqb (lower c) (lower d).

Fixpoint like_match (p : list pat_item) (s : list ascii) : bool :=
  match p with
  | [] => match s with [] => true | _ :: _ => false end
  | PAny :: p' =>
      (fix skip (s : list ascii) : bool :=
         like_match p' s
         || match s with [] => false | _ :: s' => skip s' end) s
  | POne :: p' =>
      match s with [] => false | _ :: s' => like_match p' s' end
  | PChar c :: p' =>
      match s with [] => false | d :: s' => ci_eqb c d && like_match p' s' end
  end.

Definition ilike (s p : string) : bool :=
  match parse_like (list_ascii_of_string p) with
  | Some items => like_match items (list_ascii_of_string s)
  | None => false
  end.

(** *** Conditions, in three-valued logic ([None] is unknown) *)

Definition eval_operand (now : Z) (o : operand) : value :=
  match o with
  | Lit v => v
  | CURRENT_TIMESTAMP => VTime now
  | Placeholder => VNone
  end.

Definition sql_eq (a b : value) : option bool :=
  match a, b with
  | VNone, _ | _, VNone => None
  | _, _ => Some (bool_decide (a = b))
  end.

Definition sql_ilike (a p : value) : option bool :=
  match a, p with
  | VNone, _ | _, VNone => None
  | VStr s, VStr p => Some (ilike s p)
  | _, _ => Some false
  end.

Definition sql_or (x y : option bool) : option bool :=
  match x, y with
  | Some true, _ | _, Some true => Some true
  | Some false, Some false => Some false
  | _, _ => None
  end.

Definition sql_and (x y : option bool) : option bool :=
  match x, y with
  | Some false, _ | _, Some false => Some false
  | Some true, Some true => Some true
  | _, _ => None
  end.

Fixpoint eval_cond (cols : list column) (now : Z) (r : row) (c : cond)
  : option bool :=
  match c with
  | Eq n o => sql_eq (cell cols r n) (eval_operand now o)
  | ILike n o => sql_ilike (cell cols r n) (eval_operand now o)
  | IsNotNull n => Some (is_not_None (cell cols r n))
  | In n os =>
      fold_right
        (fun o acc => sql_or (sql_eq (cell cols r n) (eval_operand now o)) acc)
        (Some false) os
  | And a b => sql_and (eval_cond cols now r a) (eval_cond cols now r b)
  | Or a b => sql_or (eval_cond cols now r a) (eval_cond cols now r b)
  end.

(** WHERE keeps the rows on which the condition is true. *)
Definition holds (cols : list column) (now : Z) (c : option cond) (r : row) : bool :=
  match c with
  | None => true
  | Some c =>
      match eval_cond cols now r c with
      | Some true => true
      | _ => false
      end
  end.

(** *** What the parser and the analyser reject *)

(** An [IN ()] without elements is not in the grammar. *)
Fixpoint cond_syntax_ok (c : cond) : bool :=
  match c with
  | In _ [] => false
  | In _ (_ :: _) => true
  | And a b | Or a b => cond_syntax_ok a && cond_syntax_ok b
  | _ => true
  end.

Fixpoint cond_columns (c : cond) : list string :=
  match c with
  | Eq n _ | ILike n _ | IsNotNull n | In n _ => [n]
  | And a b | Or a b => cond_columns a ++ cond_columns b
  end.

(** A pattern must not end with the escape character.  (The server reports
    it when the pattern is first applied to a row.) *)
Fixpoint cond_patterns_ok (c : cond) : bool :=
  match c with
  | ILike _ (Lit (VStr p)) =>
      match parse_like (list_ascii_of_string p) with
      | Some _ => true
      | None => false
      end
  | And a b | Or a b => cond_patterns_ok a && cond_patterns_ok b
  | _ => true
  end.

Definition opt_cond_syntax_ok (c : option cond) : bool :=
  match c with Some c => cond_syntax_ok c | None => true end.

Definition opt_cond_columns (c : option cond) : list string :=
  match c with Some c => cond_columns c | None => [] end.

Definition opt_cond_patterns_ok (c : option cond) : bool :=
  match c with Some c => cond_patterns_ok c | None => true end.

Definition missing_column (cols : list column) (ns : list string) : option string :=
  List.find (fun n => negb (has_column cols n)) ns.

(** *** ORDER BY ... DESC and LIMIT *)

(** Ascending order of two cells; NULL sorts as larger than everything, so
    under DESC the NULLs come first.  Only timestamps (and integers) are
    ordered by [models.py]. *)
Definition value_leb (a b : value) : bool :=
  match a, b with
  | _, VNone => true
  | VNone, _ => false
  | VTime x, VTime y => x <=? y
  | VInt x, VInt y => x <=? y
  | _, _ => true
  end.

Definition desc_by (cols : list column) (n : string) : relation row :=
  fun r1 r2 => Is_true (value_leb (cell cols r2 n) (cell cols r1 n)).

#[global] Instance desc_by_dec cols n r1 r2 : Decision (desc_by cols n r1 r2).
Proof. unfold desc_by. apply _. Defined.

Definition order_rows (cols : list column) (o : option string) (rows : list row)
  : list row :=
  match o with
  | Some n => merge_sort (desc_by cols n) rows
  | None => rows
  end.

(** LIMIT NULL is no limit; a negative count is an error. *)
Definition limit_rows (l : option operand) (now : Z) (rows : list row)
  : result (list row) :=
  match l with
  | None => Ok rows
  | Some o =>
      match eval_operand now o with
      | VNone => Ok rows
      | VInt n =>
          if n <? 0 then Raise PgInvalidRowCountInLimitClause
          else Ok (take (Z.to_nat n) rows)
      | _ => Raise PgDatatypeMismatch
      end
  end.

(** *** Executing a statement *)

Definition is_serial (c : column) : bool :=
  match col_type c with SERIAL => true | _ => false end.

(** SERIAL and PRIMARY KEY columns are NOT NULL. *)
Definition required (c : column) : bool :=
  col_not_null c || col_primary_key c || is_serial c.

Definition default_value (now serial : Z) (c : column) : value :=
  match col_default c with
  | Default v => v
  | DefaultCurrentTimestamp => VTime now
  | NoDefault => if is_serial c then VInt serial else VNone
  end.

Fixpoint assoc (given : list (string * value)) (n : string) : option value :=
  match given with
  | [] => None
  | (k, v) :: given' => if String.eqb k n then Some v else assoc given' n
  end.

(** The row an INSERT builds: the listed columns take the given values, the
    others their defaults. *)
Definition new_row (now serial : Z) (cols : list column)
    (given : list (string * value)) : row :=
  map (fun c =>
         match assoc given (col_name c) with
         | Some v => v
         | None => default_value now serial c
         end) cols.

(** The first required column that the row leaves NULL. *)
Fixpoint null_violation (cols : list column) (r : row) : option string :=
  match cols, r with
  | c :: cs, v :: r' =>
      if required c && negb (is_not_None v) then Some (col_name c)
      else null_violation cs r'
  | _, _ => None
  end.

Fixpoint first_null_violation (cols : list column) (rows : list row)
  : option string :=
  match rows with
  | [] => None
  | r :: rows' =>
      match null_violation cols r with
      | Some n => Some n
      | None => first_null_violation cols rows'
      end
  end.

Definition pk_columns (cols : list column) : list string :=
  map col_name (List.filter col_primary_key cols).

Definition pk_of (cols : list column) (r : row) : list value :=
  map (cell cols r) (pk_columns cols).

(** Does [r] repeat the primary key of a row of [rows]? *)
Definition pk_taken (cols : list column) (rows : list row) (r : row) : bool :=
  match pk_columns cols with
  | [] => false
  | _ :: _ => existsb (fun r' => bool_decide (pk_of cols r' = pk_of cols r)) rows
  end.

Fixpoint pk_distinct (cols : list column) (rows : list row) : bool :=
  match rows with
  | [] => true
  | r :: rows' => negb (pk_taken cols rows' r) && pk_distinct cols rows'
  end.

Definition uses_serial (cols : list column) (given : list (string * value)) : bool :=
  existsb (fun c => is_serial c
                    && match assoc given (col_name c) with
                       | Some _ => false
                       | None => match col_default c with NoDefault => true | _ => false end
                       end) cols.

Definition apply_sets (cols : list column) (now : Z)
    (sets : list (string * operand)) (r : row) : row :=
  fold_left (fun acc s => set_cell cols acc s.1 (eval_operand now s.2)) sets r.

(** Distinct non-NULL values, for COUNT(DISTINCT c). *)
Definition distinct_values (vs : list value) : list value :=
  remove_dups (List.filter is_not_None vs).

(** What a statement leaves in the cursor: the column names and the rows. *)
Abbreviation result_set := (list string * list row)%type.

Definition no_rows : result_set := ([], []).

Definition exec_create (t : string) (cols : list column) (db : database)
  : result (database * result_set) :=
  match db !! t with
  | Some _ => Ok (db, no_rows)
  | None => Ok (<[t := Table cols [] 1]> db, no_rows)
  end.

Definition exec_insert (now : Z) (t : string) (ns : list string)
    (vals : list operand) (db : database) : result (database * result_set) :=
  if negb (length ns =? length vals)%nat then Raise PgSyntaxError else
  match db !! t with
  | None => Raise (PgUndefinedTable t)
  | Some tbl =>
      let cols := tbl_columns tbl in
      match missing_column cols ns with
      | Some n => Raise (PgUndefinedColumn n)
      | None =>
          let given := py_zip ns (map (eval_operand now) vals) in
          let r := new_row now (tbl_serial tbl) cols given in
          match null_violation cols r with
          | Some n => Raise (PgNotNullViolation n)
          | None =>
              if pk_taken cols (tbl_rows tbl) r then Raise (PgUniqueViolation t)
              else
                let serial' :=
                  if uses_serial cols given then tbl_serial tbl + 1
                  else tbl_serial tbl in
                Ok (<[t := Table cols (tbl_rows tbl ++ [r]) serial']> db, no_rows)
          end
      end
  end.

Definition exec_update (now : Z) (t : string) (sets : list (string * operand))
    (w : cond) (db : database) : result (database * result_set) :=
  if negb (cond_syntax_ok w) then Raise PgSyntaxError else
  match sets with [] => Raise PgSyntaxError | _ :: _ =>
  match db !! t with
  | None => Raise (PgUndefinedTable t)
  | Some tbl =>
      let cols := tbl_columns tbl in
      match missing_column cols (map fst sets ++ cond_columns w) with
      | Some n => Raise (PgUndefinedColumn n)
      | None =>
          if negb (cond_patterns_ok w) then Raise PgInvalidEscapeSequence else
          let hit := holds cols now (Some w) in
          let rows' :=
            map (fun r => if hit r then apply_sets cols now sets r else r)
                (tbl_rows tbl) in
          let written := map (apply_sets cols now sets) (List.filter hit (tbl_rows tbl)) in
          match first_null_violation cols written with
          | Some n => Raise (PgNotNullViolation n)
          | None =>
              if existsb (fun n => existsb (String.eqb n) (pk_columns cols)) (map fst sets)
                 && negb (pk_distinct cols rows')
              then Raise (PgUniqueViolation t)
              else Ok (<[t := Table cols rows' (tbl_serial tbl)]> db, no_rows)
          end
      end
  end
  end.

Definition exec_select (now : Z) (t : string) (w : option cond)
    (o : option string) (l : option operand) (db : database)
  : result (database * result_set) :=
  if negb (opt_cond_syntax_ok w) then Raise PgSyntaxError else
  match db !! t with
  | None => Raise (PgUndefinedTable t)
  | Some tbl =>
      let cols := tbl_columns tbl in
      match missing_column cols (opt_cond_columns w ++ option_list o) with
      | Some n => Raise (PgUndefinedColumn n)
      | None =>
          if negb (opt_cond_patterns_ok w) then Raise PgInvalidEscapeSequence else
          let rows := order_rows cols o (List.filter (holds cols now w) (tbl_rows tbl)) in
          match limit_rows l now rows with
          | Raise e => Raise e
          | Ok rows' => Ok (db, (map col_name cols, rows'))
          end
      end
  end.

Definition exec_count (now : Z) (a : count_arg) (t : string) (w : option cond)
    (db : database) : result (database * result_set) :=
  if negb (opt_cond_syntax_ok w) then Raise PgSyntaxError else
  match db !! t with
  | None => Raise (PgUndefinedTable t)
  | Some tbl =>
      let cols := tbl_columns tbl in
      let counted := match a with CountStar => [] | CountDistinct c => [c] end in
      match missing_column cols (counted ++ opt_cond_columns w) with
      | Some n => Raise (PgUndefinedColumn n)
      | None =>
          if negb (opt_cond_patterns_ok w) then Raise PgInvalidEscapeSequence else
          let rows := List.filter (holds cols now w) (tbl_rows tbl) in
          let n :=
            match a with
            | CountStar => length rows
            | CountDistinct c => length (distinct_values (map (fun r => cell cols r c) rows))
            end in
          Ok (db, (["count"], [[VInt (Z.of_nat n)]]))
      end
  end.

(** [exec now q db]: the statement [q], with its arguments merged in, run at
    transaction time [now]. *)
Definition exec (now : Z) (q : stmt) (db : database)
  : result (database * result_set) :=
  match q with
  | CreateTableIfNotExists t cols => exec_create t cols db
  | InsertInto t ns vals => exec_insert now t ns vals db
  | Update t sets w => exec_update now t sets w db
  | SelectAll t w o l => exec_select now t w o l db
  | SelectCount a t w => exec_count now a t w db
  end.

(** *** What the store guarantees of its tables

    Every row has one cell per column, and no required column is NULL. *)

Definition row_ok (cols : list column) (r : row) : bool :=
  (length r =? length cols)%nat
  && match null_violation cols r with None => true | Some _ => false end.

Definition table_ok (tbl : table) : bool :=
  forallb (row_ok (tbl_columns tbl)) (tbl_rows tbl).

End Sql.

(** ** psycopg2 connections and cursors *)

Module Psycopg2.
Import Sql.

(** What goes over the wire, in order. *)
Inductive event : Type :=
| EvConnect
| EvExecute (q : stmt) (args : list value)
| EvCommit
| EvCursorClose
| EvClose.

(** The store with its clock, and the state of the one connection a
    function of [models.py] holds at a time: the transaction's view of the
    store and what the last statement left in the cursor. *)
Record world : Type := World {
  store : database;
  clock : Z;
  txn : database;
  cur_description : list string;
  cur_rows : list row;
  wire : list event
}.

Inductive connection : Type := Conn.
Inductive cursor : Type := Cur.

Definition emit (e : event) (w : world) : world :=
  World (store w) (clock w) (txn w) (cur_description w) (cur_rows w) (wire w ++ [e]).

(** [psycopg2.connect(DATABASE_URL)]: a transaction starts with the first
    statement and sees the committed store.  The store is taken to be
    reachable. *)
Definition connect : SE world connection :=
  fun w =>
    (Ok Conn,
     emit EvConnect (World (store w) (clock w) (store w) [] [] (wire w))).

(** [conn.cursor()] *)
Definition conn_cursor (conn : connection) : SE world cursor :=
  fun w => (Ok Cur, World (store w) (clock w) (txn w) [] [] (wire w)).

(** [cur.execute(q, args)] *)
Definition execute (cur : cursor) (q : stmt) (args : list value) : SE world unit :=
  fun w =>
    match mogrify q args with
    | None => (Raise PgArgumentsError, w)
    | Some q' =>
        let w := emit (EvExecute q args) w in
        match exec (clock w) q' (txn w) with
        | Raise e => (Raise e, w)
        | Ok (db', (names, rows)) =>
            (Ok tt, World (store w) (clock w) db' names rows (wire w))
        end
    end.

(** [cur.fetchone()]: the next row, or [None]. *)
Definition fetchone (cur : cursor) : SE world (option row) :=
  fun w =>
    match cur_rows w with
    | [] => (Ok None, w)
    | r :: rows =>
        (Ok (Some r),
         World (store w) (clock w) (txn w) (cur_description w) rows (wire w))
    end.

(** [cur.fetchall()]: the rows not yet fetched. *)
Definition fetchall (cur : cursor) : SE world (list row) :=
  fun w =>
    (Ok (cur_rows w),
     World (store w) (clock w) (txn w) (cur_description w) [] (wire w)).

(** [[column[0] for column in cur.description]]; the attribute outlives
    [cur.close()]. *)
Definition description_names (cur : cursor) : SE world (list string) :=
  fun w => (Ok (cur_description w), w).

(** [conn.commit()] *)
Definition commit (conn : connection) : SE world unit :=
  fun w =>
    (Ok tt,
     emit EvCommit
       (World (txn w) (clock w) (txn w) (cur_description w) (cur_rows w) (wire w))).

(** [cur.close()] *)
Definition cursor_close (cur : cursor) : SE world unit :=
  fun w =>
    (Ok tt,
     emit EvCursorClose
       (World (store w) (clock w) (txn w) (cur_description w) [] (wire w))).

(** [conn.close()] *)
Definition close (conn : connection) : SE world unit :=
  fun w => (Ok tt, emit EvClose w).

End Psycopg2.

(** ** [backend/models.py] *)

Module Models.
Import Sql Psycopg2.

Definition get_db_connection : SE world connection := connect.

(** *** The schema of [init_db] *)

Definition workflows_columns : list column := [
  Column "id" TEXT true false NoDefault;
  Column "status" TEXT false true (Default (VStr "pending"));
  Column "comparison_mode" TEXT false true (Default (VStr "full"));
  Column "created_at" TIMESTAMP false false DefaultCurrentTimestamp;
  Column "updated_at" TIMESTAMP false false DefaultCurrentTimestamp;
  Column "progress" INTEGER false false (Default (VInt 0));
  Column "current_stage" TEXT false false NoDefault;
  Column "message" TEXT false false NoDefault;
  Column "wi_document_path" TEXT false false NoDefault;
  Column "item_master_path" TEXT false false NoDefault
].

Definition knowledge_base_columns : list column := [
  Column "id" SERIAL true false NoDefault;
  Column "material_name" TEXT false true NoDefault;
  Column "part_number" TEXT false false NoDefault;
  Column "description" TEXT false false NoDefault;
  Column "classification_label" INTEGER false false NoDefault;
  Column "confidence_level" TEXT false false NoDefault;
  Column "supplier_info" TEXT false false NoDefault;
  Column "created_at" TIMESTAMP false false DefaultCurrentTimestamp;
  Column "workflow_id" TEXT false false NoDefault;
  Column "approved_by" TEXT false false NoDefault;
  Column "approved_at" TIMESTAMP false false NoDefault;
  Column "metadata" TEXT false false NoDefault
].

Definition pending_approvals_columns : list column := [
  Column "id" SERIAL true false NoDefault;
  Column "workflow_id" TEXT false true NoDefault;
  Column "item_data" TEXT false true NoDefault;
  Column "status" TEXT false false (Default (VStr "pending"));
  Column "created_at" TIMESTAMP false false DefaultCurrentTimestamp;
  Column "reviewed_by" TEXT false false NoDefault;
  Column "reviewed_at" TIMESTAMP false false NoDefault;
  Column "review_notes" TEXT false false NoDefault
].

Definition workflow_results_columns : list column := [
  Column "id" SERIAL true false NoDefault;
  Column "workflow_id" TEXT false true NoDefault;
  Column "results_data" TEXT false true NoDefault;
  Column "summary_data" TEXT false false NoDefault;
  Column "created_at" TIMESTAMP false false DefaultCurrentTimestamp
].

Definition init_db : SE world unit :=
  conn <~ get_db_connection ;;
  cur <~ conn_cursor conn ;;
  execute cur (CreateTableIfNotExists "workflows" workflows_columns) [] ;;;
  execute cur (CreateTableIfNotExists "knowledge_base" knowledge_base_columns) [] ;;;
  execute cur (CreateTableIfNotExists "pending_approvals" pending_approvals_columns) [] ;;;
  execute cur (CreateTableIfNotExists "workflow_results" workflow_results_columns) [] ;;;
  commit conn ;;;
  cursor_close cur ;;;
  close conn.

(** [class ItemApprovalRequest(BaseModel)], the body of an approval
    request: a list of integers, which may be empty. *)
Record ItemApprovalRequest : Type := { item_ids : list Z }.

(** [dict(zip([column[0] for column in cur.description], item))] *)
Definition row_dict (names : list string) (item : row) : dict :=
  py_dict (py_zip names item).

(** *** [WorkflowModel] *)

Definition create_workflow (workflow_id comparison_mode wi_path item_path : value)
  : SE world unit :=
  conn <~ get_db_connection ;;
  cur <~ conn_cursor conn ;;
  execute cur
    (InsertInto "workflows"
       ["id"; "comparison_mode"; "wi_document_path"; "item_master_path"]
       [Placeholder; Placeholder; Placeholder; Placeholder])
    [workflow_id; comparison_mode; wi_path; item_path] ;;;
  commit conn ;;;
  cursor_close cur ;;;
  close conn.

Definition update_workflow_status (workflow_id status progress stage message : value)
  : SE world unit :=
  conn <~ get_db_connection ;;
  cur <~ conn_cursor conn ;;
  let updates := [("status", Placeholder); ("updated_at", CURRENT_TIMESTAMP)] in
  let values := [status] in
  let '(updates, values) :=
    if is_not_None progress
    then (updates ++ [("progress", Placeholder)], values ++ [progress])
    else (updates, values) in
  let '(updates, values) :=
    if truthy stage
    then (updates ++ [("current_stage", Placeholder)], values ++ [stage])
    else (updates, values) in
  let '(updates, values) :=
    if truthy message
    then (updates ++ [("message", Placeholder)], values ++ [message])
    else (updates, values) in
  let values := values ++ [workflow_id] in
  execute cur (Update "workflows" updates (Eq "id" Placeholder)) values ;;;
  commit conn ;;;
  cursor_close cur ;;;
  close conn.

Definition get_workflow (workflow_id : value) : SE world (option dict) :=
  conn <~ get_db_connection ;;
  cur <~ conn_cursor conn ;;
  execute cur (SelectAll "workflows" (Some (Eq "id" Placeholder)) None None)
    [workflow_id] ;;;
  workflow <~ fetchone cur ;;
  cursor_close cur ;;;
  close conn ;;;
  names <~ description_names cur ;;
  ret match workflow with
      | Some ((_ :: _) as item) => Some (row_dict names item)
      | _ => None
      end.

Definition get_all_workflows (limit : value) : SE world (list dict) :=
  conn <~ get_db_connection ;;
  cur <~ conn_cursor conn ;;
  execute cur (SelectAll "workflows" None (Some "created_at") (Some Placeholder))
    [limit] ;;;
  workflows <~ fetchall cur ;;
  cursor_close cur ;;;
  close conn ;;;
  names <~ description_names cur ;;
  ret (map (row_dict names) workflows).

(** *** [KnowledgeBaseModel] *)

Definition add_item (material_name part_number description classification_label
    confidence_level supplier_info workflow_id approved_by metadata : value)
  : SE world unit :=
  conn <~ get_db_connection ;;
  cur <~ conn_cursor conn ;;
  execute cur
    (InsertInto "knowledge_base"
       ["material_name"; "part_number"; "description"; "classification_label";
        "confidence_level"; "supplier_info"; "workflow_id"; "approved_by";
        "approved_at"; "metadata"]
       [Placeholder; Placeholder; Placeholder; Placeholder; Placeholder;
        Placeholder; Placeholder; Placeholder; CURRENT_TIMESTAMP; Placeholder])
    [material_name; part_number; description; classification_label;
     confidence_level; supplier_info; workflow_id; approved_by; metadata] ;;;
  commit conn ;;;
  cursor_close cur ;;;
  close conn.

(** [f'%{query}%'] *)
Definition contains_pattern (query : string) : string := "%" +:+ query +:+ "%".

Definition search_items (query : string) (limit : value) : SE world (list dict) :=
  conn <~ get_db_connection ;;
  cur <~ conn_cursor conn ;;
  (if truthy (VStr query)
   then
     execute cur
       (SelectAll "knowledge_base"
          (Some (Or (Or (ILike "material_name" Placeholder)
                        (ILike "part_number" Placeholder))
                    (ILike "description" Placeholder)))
          (Some "created_at") (Some Placeholder))
       [VStr (contains_pattern query); VStr (contains_pattern query);
        VStr (contains_pattern query); limit]
   else
     execute cur
       (SelectAll "knowledge_base" None (Some "created_at") (Some Placeholder))
       [limit]) ;;;
  items <~ fetchall cur ;;
  cursor_close cur ;;;
  close conn ;;;
  names <~ description_names cur ;;
  ret (map (row_dict names) items).

(** [cur.fetchone()[0]] *)
Definition fetchone_0 (cur : cursor) : SE world value :=
  r <~ fetchone cur ;;
  match r with
  | None => raise TypeError
  | Some [] => raise IndexError
  | Some (v :: _) => ret v
  end.

Definition lift {S A : Type} (r : result A) : SE S A := fun s => (r, s).

Definition get_stats : SE world dict :=
  conn <~ get_db_connection ;;
  cur <~ conn_cursor conn ;;
  execute cur (SelectCount CountStar "knowledge_base" None) [] ;;;
  total_items <~ fetchone_0 cur ;;
  execute cur
    (SelectCount (CountDistinct "workflow_id") "knowledge_base"
       (Some (IsNotNull "workflow_id"))) [] ;;;
  total_workflows <~ fetchone_0 cur ;;
  execute cur
    (SelectCount CountStar "knowledge_base"
       (Some (Eq "confidence_level" (Lit (VStr "high"))))) [] ;;;
  high_confidence_items <~ fetchone_0 cur ;;
  positive <~ lift (Float.py_gt total_items (VInt 0)) ;;
  match_rate <~
    (if positive : bool
     then q <~ lift (Float.py_truediv high_confidence_items total_items) ;;
          lift (Float.py_mul q (VInt 100))
     else ret (VInt 0)) ;;
  cursor_close cur ;;;
  close conn ;;;
  rounded <~ lift (Float.py_round match_rate 1) ;;
  ret [("total_items", total_items);
       ("total_workflows", total_workflows);
       ("total_matches", total_items);
       ("match_rate", rounded)].

(** *** [PendingApprovalModel] *)

Definition add_pending_item (workflow_id item_data : value) : SE world unit :=
  conn <~ get_db_connection ;;
  cur <~ conn_cursor conn ;;
  execute cur
    (InsertInto "pending_approvals" ["workflow_id"; "item_data"]
       [Placeholder; Placeholder])
    [workflow_id; item_data] ;;;
  commit conn ;;;
  cursor_close cur ;;;
  close conn.

Definition get_pending_items (workflow_id : value) : SE world (list dict) :=
  conn <~ get_db_connection ;;
  cur <~ conn_cursor conn ;;
  (if truthy workflow_id
   then
     execute cur
       (SelectAll "pending_approvals"
          (Some (And (Eq "workflow_id" Placeholder)
                     (Eq "status" (Lit (VStr "pending")))))
          (Some "created_at") None)
       [workflow_id]
   else
     execute cur
       (SelectAll "pending_approvals"
          (Some (Eq "status" (Lit (VStr "pending"))))
          (Some "created_at") None)
       []) ;;;
  items <~ fetchall cur ;;
  cursor_close cur ;;;
  close conn ;;;
  names <~ description_names cur ;;
  ret (map (row_dict names) items).

Definition update_approval_status (item_ids : list value) (status reviewer notes : value)
  : SE world unit :=
  conn <~ get_db_connection ;;
  cur <~ conn_cursor conn ;;
  let placeholders := map (fun _ => Placeholder) item_ids in
  execute cur
    (Update "pending_approvals"
       [("status", Placeholder); ("reviewed_by", Placeholder);
        ("reviewed_at", CURRENT_TIMESTAMP); ("review_notes", Placeholder)]
       (In "id" placeholders))
    ([status; reviewer; notes] ++ item_ids) ;;;
  commit conn ;;;
  cursor_close cur ;;;
  close conn.

End Models.

(** ** Files: [os], [open] and [shutil] on a POSIX file system *)

Module Posix.

Inductive node : Type :=
| Dir
| File (data : list byte).

(** A file system maps the absolute path of each entry, as the list of its
    components, to the entry; the root directory is the empty list and
    always there.  Links, permissions and free space are not modelled. *)
Abbreviation path := (list string).
Abbreviation filesystem := (gmap (list string) node).

Definition NAME_MAX : nat := 255.

(** The components of a path, [""] where two separators meet or the path
    begins or ends with one. *)
Fixpoint split_sep (s : string) : list string :=
  match s with
  | EmptyString => [EmptyString]
  | String c s' =>
      if Ascii.eqb c "/" then EmptyString :: split_sep s'
      else
        match split_sep s' with
        | x :: xs => String c x :: xs
        | [] => [String c EmptyString]
        end
  end.

Definition starts_with_sep (s : string) : bool :=
  match s with
  | String c _ => Ascii.eqb c "/"
  | EmptyString => false
  end.

Fixpoint ends_with_sep (s : string) : bool :=
  match s with
  | EmptyString => false
  | String c EmptyString => Ascii.eqb c "/"
  | String _ s' => ends_with_sep s'
  end.

(** [os.path.join(a, b)] *)
Definition path_join (a b : string) : string :=
  if starts_with_sep b then b
  else if String.eqb a "" || ends_with_sep a then a +:+ b
  else a +:+ "/" +:+ b.

Definition parent (p : path) : path := removelast p.

Inductive step : Type :=
| Stay              (* "" and "." *)
| Up                (* ".." *)
| Down (c : string).

Definition classify (c : string) : step :=
  if String.eqb c "" || String.eqb c "." then Stay
  else if String.eqb c ".." then Up
  else Down c.

Definition is_dir (fs : filesystem) (p : path) : bool :=
  match p with
  | [] => true
  | _ :: _ => match fs !! p with Some Dir => true | _ => false end
  end.

(** Follow [comps] from the directory [cur]; every component must be a
    directory. *)
Fixpoint walk (fs : filesystem) (cur : path) (comps : list string) : result path :=
  match comps with
  | [] => Ok cur
  | c :: cs =>
      match classify c with
      | Stay => walk fs cur cs
      | Up => walk fs (parent cur) cs
      | Down c =>
          if (NAME_MAX <? String.length c)%nat then Raise FileNameTooLong
          else
            match fs !! (cur ++ [c]) with
            | Some Dir => walk fs (cur ++ [c]) cs
            | Some (File _) => Raise NotADirectoryError
            | None => Raise FileNotFoundError
            end
      end
  end.

(** The directory part and the last component of a path. *)
Definition dir_and_name (s : string) : list string * string :=
  let comps := split_sep s in
  (removelast comps, List.last comps "").

(** Where a path leads: the directory that holds its last component, and
    that component.  A path that ends in a separator, [.] or [..] names a
    directory. *)
Inductive target : Type :=
| TDir (p : path)
| TEntry (p : path).

Definition resolve (fs : filesystem) (s : string) : result target :=
  let '(comps, name) := dir_and_name s in
  match walk fs [] comps with
  | Raise e => Raise e
  | Ok d =>
      match classify name with
      | Stay => Ok (TDir d)
      | Up => Ok (TDir (parent d))
      | Down c =>
          if (NAME_MAX <? String.length c)%nat then Raise FileNameTooLong
          else Ok (TEntry (d ++ [c]))
      end
  end.

(** [os.path.exists(s)]: false as well when the path cannot be followed. *)
Definition exists_ (fs : filesystem) (s : string) : bool :=
  match resolve fs s with
  | Ok (TDir _) => true
  | Ok (TEntry p) => match fs !! p with Some _ => true | None => false end
  | Raise _ => false
  end.

(** [os.makedirs(s, exist_ok=True)]: create the directories of [s] that are
    missing.  A component that exists and is not a directory stops it. *)
Fixpoint mkdirs (fs : filesystem) (cur : path) (comps : list string)
  : result filesystem :=
  match comps with
  | [] => Ok fs
  | c :: cs =>
      match classify c with
      | Stay => mkdirs fs cur cs
      | Up => mkdirs fs (parent cur) cs
      | Down c =>
          if (NAME_MAX <? String.length c)%nat then Raise FileNameTooLong
          else
            match fs !! (cur ++ [c]) with
            | Some Dir => mkdirs fs (cur ++ [c]) cs
            | Some (File _) =>
                if forallb (fun c' => match classify c' with Stay => true | _ => false end) cs
                then Raise FileExistsError
                else Raise NotADirectoryError
            | None => mkdirs (<[cur ++ [c] := Dir]> fs) (cur ++ [c]) cs
            end
      end
  end.

Definition makedirs (fs : filesystem) (s : string) : result filesystem :=
  mkdirs fs [] (split_sep s).

(** [open(s, "w")] and [open(s, "wb")]: the file is created, or emptied if
    it exists. *)
Definition open_write (fs : filesystem) (s : string) : result (path * filesystem) :=
  match resolve fs s with
  | Raise e => Raise e
  | Ok (TDir _) => Raise IsADirectoryError
  | Ok (TEntry p) =>
      match fs !! p with
      | Some Dir => Raise IsADirectoryError
      | _ => Ok (p, <[p := File []]> fs)
      end
  end.

(** [open(s, "r")] *)
Definition open_read (fs : filesystem) (s : string) : result path :=
  match resolve fs s with
  | Raise e => Raise e
  | Ok (TDir _) => Raise IsADirectoryError
  | Ok (TEntry p) =>
      match fs !! p with
      | Some Dir => Raise IsADirectoryError
      | Some (File _) => Ok p
      | None => Raise FileNotFoundError
      end
  end.

(** Append to an open file. *)
Definition write (fs : filesystem) (p : path) (data : list byte) : filesystem :=
  match fs !! p with
  | Some (File old) => <[p := File (old ++ data)]> fs
  | _ => fs
  end.

(** The content of the file at [s], read directly. *)
Definition read_file (fs : filesystem) (s : string) : option (list byte) :=
  match open_read fs s with
  | Ok p => match fs !! p with Some (File data) => Some data | _ => None end
  | Raise _ => None
  end.

End Posix.

(** ** [backend/services/file_storage_service.py] *)

Module FileStorage.
Import Posix.

(** The process: the file system, the streams that are open for reading
    (each with the bytes not yet read), and what was logged. *)
Record world : Type := World {
  fs : filesystem;
  streams : gmap nat (list byte);
  logged : list (string * exn)
}.

(** [fastapi.UploadFile]: the name the client sent, if any, and the stream
    of the content. *)
Record UploadFile : Type := {
  filename : option string;
  file : nat
}.

(** A JSON-serializable document. *)
#[local] Set Warnings "-register-all".
Inductive json : Type :=
| JNull
| JBool (b : bool)
| JInt (z : Z)
| JStr (s : string)
| JList (items : list json)
| JDict (items : list (string * json)).

(** The modules that the file imports by name: [os], [shutil] and
    [logging].  ([UploadFile] is imported from [fastapi] for the
    annotation.)  There is no [import json]. *)
Inductive pymodule : Type := os | shutil | logging.

(** Looking up a global name of the module. *)
Definition load_global (name : string) : SE world pymodule :=
  if String.eqb name "os" then ret os
  else if String.eqb name "shutil" then ret shutil
  else if String.eqb name "logging" then ret logging
  else raise (NameError name).

Definition lift_fs {A : Type} (f : filesystem -> result (A * filesystem)) : SE world A :=
  fun w =>
    match f (fs w) with
    | Ok (a, fs') => (Ok a, World fs' (streams w) (logged w))
    | Raise e => (Raise e, w)
    end.

(** [f"{x}"] of a name that may be [None]. *)
Definition py_str (x : option string) : string :=
  match x with
  | Some s => s
  | None => "None"
  end.

(** [os.path.join(a, b)]; [b] must be a string. *)
Definition os_path_join (a : string) (b : option string) : SE world string :=
  load_global "os" ;;;
  match b with
  | Some b => ret (path_join a b)
  | None => raise TypeError
  end.

(** [os.makedirs(s, exist_ok=True)] *)
Definition os_makedirs (s : string) : SE world unit :=
  load_global "os" ;;;
  lift_fs (fun fs => match makedirs fs s with
                     | Ok fs' => Ok (tt, fs')
                     | Raise e => Raise e
                     end).

(** [os.path.exists(s)] *)
Definition os_path_exists (s : string) : SE world bool :=
  load_global "os" ;;;
  fun w => (Ok (exists_ (fs w) s), w).

(** [with open(s, mode) as f: body f]: the file is closed on the way out,
    whether [body] returns or raises. *)
Definition with_open_write {A : Type} (s : string) (body : path -> SE world A)
  : SE world A :=
  f <~ lift_fs (fun fs => open_write fs s) ;;
  body f.

Definition with_open_read {A : Type} (s : string) (body : path -> SE world A)
  : SE world A :=
  f <~ lift_fs (fun fs => match open_read fs s with
                          | Ok p => Ok (p, fs)
                          | Raise e => Raise e
                          end) ;;
  body f.

(** [shutil.copyfileobj(src, dst)]: everything left in [src] goes to
    [dst]; [src] is then at its end. *)
Definition shutil_copyfileobj (src : nat) (dst : path) : SE world unit :=
  load_global "shutil" ;;;
  fun w =>
    match streams w !! src with
    | None => (Raise ValueError, w)
    | Some data =>
        (Ok tt, World (write (fs w) dst data) (<[src := []]> (streams w)) (logged w))
    end.

(** [logging.error(f"{message}{e}")] *)
Definition logging_error (message : string) (e : exn) : SE world unit :=
  load_global "logging" ;;;
  fun w => (Ok tt, World (fs w) (streams w) (logged w ++ [(message, e)])).

(** [json.dump(...)] and [json.load(...)]: the name [json] is looked up
    first; none of the imported modules has the attribute. *)
Definition json_dump (results_data : json) (f : path) : SE world unit :=
  load_global "json" ;;;
  raise AttributeError.

Definition json_load (f : path) : SE world json :=
  load_global "json" ;;;
  raise AttributeError.

Record FileStorageService : Type := {
  base_dir : string;
  upload_dir : string;
  results_dir : string
}.

(** [FileStorageService()] *)
Definition init : SE world FileStorageService :=
  let base_dir := "/var/data" in
  upload_dir <~ os_path_join base_dir (Some "uploads") ;;
  results_dir <~ os_path_join base_dir (Some "results") ;;
  os_makedirs upload_dir ;;;
  os_makedirs results_dir ;;;
  ret {| base_dir := base_dir; upload_dir := upload_dir; results_dir := results_dir |}.

Definition save_file (self : FileStorageService) (file_ : UploadFile)
    (workflow_id : string) : SE world string :=
  workflow_path <~ os_path_join (upload_dir self) (Some workflow_id) ;;
  os_makedirs workflow_path ;;;
  file_path <~ os_path_join workflow_path (filename file_) ;;
  try_except
    (with_open_write file_path (fun buffer =>
       shutil_copyfileobj (file file_) buffer) ;;;
     ret file_path)
    (fun e =>
       logging_error ("Failed to save file " +:+ py_str (filename file_) +:+ ": ") e ;;;
       raise (RuntimeError "Failed to save file: " e)).

Definition save_results (self : FileStorageService) (workflow_id : string)
    (results_data : json) : SE world string :=
  results_file <~ os_path_join (results_dir self) (Some (workflow_id +:+ ".json")) ;;
  try_except
    (with_open_write results_file (fun f => json_dump results_data f) ;;;
     ret results_file)
    (fun e =>
       logging_error ("Failed to save results for workflow " +:+ workflow_id +:+ ": ") e ;;;
       raise (RuntimeError "Failed to save results: " e)).

Definition get_results (self : FileStorageService) (workflow_id : string)
  : SE world json :=
  results_file <~ os_path_join (results_dir self) (Some (workflow_id +:+ ".json")) ;;
  found <~ os_path_exists results_file ;;
  (if found : bool then ret tt else raise FileNotFoundError) ;;;
  try_except
    (with_open_read results_file (fun f => json_load f))
    (fun e =>
       logging_error ("Failed to read results file for workflow " +:+ workflow_id +:+ ": ") e ;;;
       raise (RuntimeError "Failed to read results: " e)).

End FileStorage.

(** ** Notions used to state the properties of the store *)

Module SqlSpec.
Import Sql Psycopg2.


Fixpoint ci_prefix (q s : list ascii) : bool :=
  match q, s with
  | [], _ => true
  | _ :: _, [] => false
  | c :: q', d :: s' => ci_eqb c d && ci_prefix q' s'
  end.

(** [q] occurs in [s] as a run of consecutive characters, letter case
    aside. *)
Fixpoint ci_occurs (q s : list ascii) : bool :=
  ci_prefix q s
  || match s with
     | [] => false
     | _ :: s' => ci_occurs q s'
     end.


(** Every table of the store satisfies its constraints. *)
Definition db_ok (db : database) : Prop :=
  forall t tbl, db !! t = Some tbl -> table_ok tbl = true.

End SqlSpec.

(** ** Notions used to state the properties of [models.py] *)

Module ModelsSpec.
Import Sql Psycopg2 Models SqlSpec.

(** CREATE TABLE IF NOT EXISTS on the store. *)
Definition ensure_table (t : string) (cols : list column) (db : database) : database :=
  match db !! t with
  | Some _ => db
  | None => <[t := Table cols [] 1]> db
  end.

Definition schema (db : database) : database :=
  ensure_table "workflow_results" workflow_results_columns
    (ensure_table "pending_approvals" pending_approvals_columns
       (ensure_table "knowledge_base" knowledge_base_columns
          (ensure_table "workflows" workflows_columns db))).

Definition tables : list string :=
  ["workflows"; "knowledge_base"; "pending_approvals"; "workflow_results"].


(** No row of [rows] has the identifier [id]. *)
Definition fresh (id : string) (rows : list row) : Prop :=
  Forall (fun r => cell workflows_columns r "id" <> VStr id) rows.


Definition select_workflow : stmt :=
  SelectAll "workflows" (Some (Eq "id" Placeholder)) None None.




(** The SET list and the arguments as [update_workflow_status] builds them. *)
Definition status_updates (progress stage message : value) : list (string * operand) :=
  [("status", Placeholder); ("updated_at", CURRENT_TIMESTAMP)]
  ++ (if is_not_None progress then [("progress", Placeholder)] else [])
  ++ (if truthy stage then [("current_stage", Placeholder)] else [])
  ++ (if truthy message then [("message", Placeholder)] else []).

Definition status_values (workflow_id status progress stage message : value) : list value :=
  [status]
  ++ (if is_not_None progress then [progress] else [])
  ++ (if truthy stage then [stage] else [])
  ++ (if truthy message then [message] else [])
  ++ [workflow_id].



(** WHERE status = 'pending' *)
Definition is_pending (r : row) : bool :=
  holds pending_approvals_columns 0 (Some (Eq "status" (Lit (VStr "pending")))) r.

Definition pending_names : list string := map col_name pending_approvals_columns.



Definition empty_world : world := World ∅ 0 ∅ [] [] [].

Definition kb_cell (r : row) (n : string) : value := cell knowledge_base_columns r n.

(** Rows whose [confidence_level] is 'high'. *)
Definition is_high (r : row) : bool :=
  bool_decide (kb_cell r "confidence_level" = VStr "high").

(** The distinct workflow identifiers of the rows, NULL left out. *)
Definition workflow_ids (rows : list row) : list value :=
  distinct_values (map (fun r => kb_cell r "workflow_id") rows).

(** [round(h / n * 100, 1)], as [get_stats] computes it on counts. *)
Definition rate (h n : Z) : value :=
  if 0 <? n
  then VFloat (Float.round_float
                 (Float.mul (Float.int_truediv h n) (Float.of_int 100)) 1)
  else VInt 0.

(** The spec's formula for the match rate: [round(100 * h / n, 1)]. *)
Definition spec_rate (h n : Z) : value :=
  if 0 <? n
  then VFloat (Float.round_float (Float.int_truediv (100 * h) n) 1)
  else VInt 0.

(** The state a computation leaves. *)
Definition after {A : Type} (m : SE world A) (w : world) : world := (m w).2.

(** A knowledge base of 80 items, the first 23 of them with confidence
    level 'high', built by [init_db] and [add_item]. *)
Definition kb_23_of_80 : world :=
  fold_left
    (fun w i =>
       after (add_item (VStr "steel") VNone VNone VNone
                (VStr (if (i <? 23)%nat then "high" else "low"))
                VNone VNone VNone VNone) w)
    (seq 0 80) (after init_db empty_world).

(** The spec's notion of a match: [q] occurs in [s], letter case aside. *)
Definition ci_substring (q s : string) : bool :=
  ci_occurs (list_ascii_of_string q) (list_ascii_of_string s).

(** A knowledge base with one item. *)
Definition kb_steel : world :=
  after (add_item (VStr "steel") (VStr "P-100") (VStr "rolled sheet") VNone
           (VStr "high") VNone VNone VNone VNone)
    (after init_db empty_world).

(** The store at time [t]. *)
Definition at_time (t : Z) (w : world) : world :=
  World (store w) t (txn w) (cur_description w) (cur_rows w) (wire w).

(** The table of a store, if it is there. *)
Definition table_of (t : string) (w : world) : table :=
  default (Table [] [] 0) (store w !! t).

(** One workflow, created at time 100. *)
Definition one_workflow : world :=
  after (create_workflow (VStr "wf-0") (VStr "full") (VStr "/var/data/uploads/wf-0/wi.pdf") VNone)
    (at_time 100 (after init_db empty_world)).

(** Two items awaiting review, of two workflows. *)
Definition two_pending : world :=
  after (add_pending_item (VStr "wf-1") (VStr "{}"))
    (after (add_pending_item (VStr "wf-0") (VStr "{}"))
       (after init_db empty_world)).

Definition kb_names : list string := map col_name knowledge_base_columns.



Definition search_cond (p : value) : cond :=
  Or (Or (ILike "material_name" (Lit p)) (ILike "part_number" (Lit p)))
     (ILike "description" (Lit p)).




(** The committed store and the open transaction satisfy the constraints. *)
Definition world_ok (w : world) : Prop := db_ok (store w) /\ db_ok (txn w).

(** [m] keeps the constraints, however it ends. *)
Definition keeps {A : Type} (m : SE world A) : Prop :=
  forall w, world_ok w -> world_ok (m w).2.



(** [m] leaves the committed store as it is, however it ends. *)
Definition reads_only {A : Type} (m : SE world A) : Prop :=
  forall w, store (m w).2 = store w.


Definition never_raises {A : Type} (m : SE world A) : Prop :=
  forall w, exists a, (m w).1 = Ok a.

(** The next value of the table's sequence is the [id] of none of its
    rows, as it is when every [id] came from the sequence. *)
Definition serial_unused (tbl : table) : Prop :=
  Forall (fun r => cell (tbl_columns tbl) r "id" <> VInt (tbl_serial tbl)) (tbl_rows tbl).




(** Every row has an integer [id] that the sequence of the table has
    passed. *)
Definition ids_issued (tbl : table) : Prop :=
  Forall (fun r => exists z, cell (tbl_columns tbl) r "id" = VInt z /\ z < tbl_serial tbl)
    (tbl_rows tbl).

(** The tables whose [id] comes from a sequence and that [models.py]
    writes, with their columns. *)
Definition serial_tables : list (string * list column) :=
  [("knowledge_base", knowledge_base_columns);
   ("pending_approvals", pending_approvals_columns)].

(** Where these tables exist they have the columns of [init_db], and their
    sequences are ahead of their rows. *)
Definition sequences_ok (db : database) : Prop :=
  forall t cols tbl,
    (t, cols) ∈ serial_tables -> db !! t = Some tbl ->
    tbl_columns tbl = cols /\ ids_issued tbl.

(** A statement that leaves the [id] column of these tables to the store. *)
Definition leaves_ids (q : stmt) : Prop :=
  match q with
  | CreateTableIfNotExists t cols =>
      forall cols', (t, cols') ∈ serial_tables -> cols = cols'
  | InsertInto t ns _ =>
      forall cols, (t, cols) ∈ serial_tables -> existsb (String.eqb "id") ns = false
  | Update t sets _ =>
      forall cols, (t, cols) ∈ serial_tables ->
      existsb (String.eqb "id") (map fst sets) = false
  | _ => True
  end.

(** The committed store and the open transaction have their sequences
    ahead of their rows. *)
Definition ahead (w : world) : Prop := sequences_ok (store w) /\ sequences_ok (txn w).

(** [m] keeps the sequences ahead, however it ends. *)
Definition stays_ahead {A : Type} (m : SE world A) : Prop :=
  forall w, ahead w -> ahead (m w).2.


End ModelsSpec.

(** ** Notions used to state the properties of the file service *)

Module FileStorageSpec.
Import Posix FileStorage.

(** The service as [FileStorageService()] builds it. *)
Definition service : FileStorageService :=
  {| base_dir := "/var/data";
     upload_dir := "/var/data/uploads";
     results_dir := "/var/data/results" |}.

(** A disk with a [/tmp] directory, one open upload stream holding the
    bytes "%PDF", and the service started on it. *)
Definition upload_bytes : list byte := [x25; x50; x44; x46].

Definition disk : world :=
  World {[ ["tmp"] := Dir ]} {[ 0%nat := upload_bytes ]} [].

Definition started : world := (init disk).2.

Fixpoint repeat_char (c : ascii) (n : nat) : string :=
  match n with
  | O => EmptyString
  | S n' => String c (repeat_char c n')
  end.

(** A workflow identifier of 256 characters, one more than a file name may
    have. *)
Definition long_workflow_id : string := repeat_char "a" 256.

(** The entries of a file system. *)
Definition entries (w : world) : list (path * node) := map_to_list (fs w).

Definition no_sep (s : string) : Prop :=
  Forall (fun c => c <> "/"%char) (list_ascii_of_string s).

(** A name that is one path component: not empty, not [.] or [..],
    without separator, and no longer than a file name may be. *)
Definition plain_name (s : string) : Prop :=
  s <> "" /\ s <> "." /\ s <> ".." /\ no_sep s /\ (String.length s <= NAME_MAX)%nat.

Definition uploads : path := ["var"; "data"; "uploads"].

(** The upload directory is in place, as [FileStorageService()] leaves it. *)
Definition uploads_ready (fs : filesystem) : Prop :=
  fs !! ["var"] = Some Dir /\ fs !! ["var"; "data"] = Some Dir /\ fs !! uploads = Some Dir.

Definition not_a_file (fs : filesystem) (p : path) : Prop :=
  fs !! p = None \/ fs !! p = Some Dir.


(** Where [save_file] puts the upload [name] of workflow [wf]. *)
Definition upload_path (wf name : string) : string :=
  ("/var/data/uploads" +:+ String "/" wf) +:+ String "/" name.



Definition results : path := ["var"; "data"; "results"].

(** The results directory is in place, as [FileStorageService()] leaves it. *)
Definition results_ready (fs : filesystem) : Prop :=
  fs !! ["var"] = Some Dir /\ fs !! ["var"; "data"] = Some Dir /\ fs !! results = Some Dir.



(** A path component that names an entry and is short enough. *)
Definition plain_comp (c : string) : Prop :=
  classify c = Down c /\ (NAME_MAX <? String.length c)%nat = false.

(** One of the directories that the service needs is a file. *)
Definition blocked (fs : filesystem) : Prop :=
  exists p data,
    p ∈ [["var"]; ["var"; "data"]; uploads; results] /\ fs !! p = Some (File data).

End FileStorageSpec.

(** * Properties *)

Section Monad.
Context {S A B : Type}.

Lemma bind_ok (m : SE S A) (k : A -> SE S B) s a s' :
  m s = (Ok a, s') -> bind m k s = k a s'.
Proof. intros H. unfold bind. by rewrite H. Qed.


End Monad.

Module SqlFacts.
Import Sql Psycopg2 SqlSpec.

#[local] Arguments execute : simpl never.

Lemma execute_select cur q args w t wc o l tbl rows :
  mogrify q args = Some (SelectAll t wc o l) ->
  txn w !! t = Some tbl ->
  opt_cond_syntax_ok wc = true ->
  missing_column (tbl_columns tbl) (opt_cond_columns wc ++ option_list o) = None ->
  opt_cond_patterns_ok wc = true ->
  limit_rows l (clock w)
    (order_rows (tbl_columns tbl) o
       (List.filter (holds (tbl_columns tbl) (clock w) wc) (tbl_rows tbl))) = Ok rows ->
  execute cur q args w =
  (Ok tt,
   World (store w) (clock w) (txn w) (map col_name (tbl_columns tbl)) rows
     (wire w ++ [EvExecute q args])).
Proof.
  intros Hm Ht Hs Hc Hp Hl. unfold execute. rewrite Hm. cbn [emit clock txn exec store wire].
  unfold exec_select. rewrite Hs, Ht, Hc, Hp. cbn [negb]. rewrite Hl. reflexivity.
Qed.

Lemma execute_count cur q args w a t wc tbl :
  mogrify q args = Some (SelectCount a t wc) ->
  txn w !! t = Some tbl ->
  opt_cond_syntax_ok wc = true ->
  missing_column (tbl_columns tbl)
    (match a with CountStar => [] | CountDistinct c => [c] end ++ opt_cond_columns wc) = None ->
  opt_cond_patterns_ok wc = true ->
  execute cur q args w =
  (Ok tt,
   World (store w) (clock w) (txn w) ["count"]
     [[VInt (Z.of_nat
        (let rows := List.filter (holds (tbl_columns tbl) (clock w) wc) (tbl_rows tbl) in
         match a with
         | CountStar => length rows
         | CountDistinct c =>
             length (distinct_values (map (fun r => cell (tbl_columns tbl) r c) rows))
         end))]]
     (wire w ++ [EvExecute q args])).
Proof.
  intros Hm Ht Hs Hc Hp. unfold execute. rewrite Hm. cbn [emit clock txn exec store wire].
  unfold exec_count. rewrite Hs, Ht, Hc, Hp. reflexivity.
Qed.

(** *** LIKE patterns without wildcards *)








Lemma list_ascii_of_string_app a b :
  list_ascii_of_string (a +:+ b) = list_ascii_of_string a ++ list_ascii_of_string b.
Proof.
  induction a as [|c a IH]; [done|].
  simpl. f_equal. exact IH.
Qed.


Lemma value_leb_total a b : value_leb a b = true \/ value_leb b a = true.
Proof. destruct a, b; cbn; auto; rewrite !Z.leb_le; lia. Qed.

#[global] Instance desc_by_total cols n : Total (desc_by cols n).
Proof.
  intros r1 r2. unfold desc_by.
  destruct (value_leb_total (cell cols r2 n) (cell cols r1 n)) as [->| ->]; cbn; auto.
Qed.


(** ORDER BY c DESC LIMIT k over the rows that WHERE keeps: a sorted
    arrangement of those rows, cut after [k]. *)
Lemma select_rows cols now wc c (k : Z) rows :
  0 <= k ->
  exists all,
    limit_rows (Some (Lit (VInt k))) now
      (order_rows cols (Some c) (List.filter (holds cols now wc) rows))
    = Ok (take (Z.to_nat k) all)
    /\ Sorted (desc_by cols c) all
    /\ all ≡ₚ List.filter (holds cols now wc) rows.
Proof.
  intros Hk. exists (merge_sort (desc_by cols c) (List.filter (holds cols now wc) rows)).
  split; [|split].
  - cbn. by rewrite (proj2 (Z.ltb_ge _ _) Hk).
  - apply Sorted_merge_sort. apply _.
  - apply merge_sort_Permutation.
Qed.



(** *** The constraints of the store are kept by every statement *)

Lemma db_ok_insert db t tbl : db_ok db -> table_ok tbl = true -> db_ok (<[t := tbl]> db).
Proof.
  intros Hdb Htbl u tbl'. destruct (decide (t = u)) as [->|Hne].
  - rewrite lookup_insert_eq. by intros [= <-].
  - rewrite lookup_insert_ne by done. apply Hdb.
Qed.

Lemma new_row_length now serial cols given :
  length (new_row now serial cols given) = length cols.
Proof. unfold new_row. apply length_map. Qed.

Lemma set_cell_length cols r n v : length (set_cell cols r n v) = length r.
Proof. unfold set_cell. destruct (col_index cols n); [apply length_insert|done]. Qed.

Lemma apply_sets_length cols now sets r : length (apply_sets cols now sets r) = length r.
Proof.
  unfold apply_sets. revert r. induction sets as [|s sets IH]; intros r; [done|].
  cbn. by rewrite IH, set_cell_length.
Qed.

Lemma first_null_violation_rows cols rows r :
  first_null_violation cols rows = None -> List.In r rows -> null_violation cols r = None.
Proof.
  induction rows as [|r' rows IH]; [done|]. cbn.
  destruct (null_violation cols r') eqn:E; [done|].
  intros H [<-|Hr]; auto.
Qed.

Lemma forallb_snoc {A : Type} (p : A -> bool) l x :
  forallb p (l ++ [x]) = forallb p l && p x.
Proof. rewrite forallb_app. cbn. by rewrite andb_true_r. Qed.

(** A statement that succeeds leaves a store whose tables satisfy their
    constraints, if they did before. *)
Theorem exec_keeps_constraints now q db db' rs :
  db_ok db -> exec now q db = Ok (db', rs) -> db_ok db'.
Proof.
  intros Hdb. destruct q as [t cols|t ns vals|t sets wc|t wc o l|a t wc]; cbn [exec].
  - unfold exec_create. destruct (db !! t); intros [= <- _]; [done|].
    by apply db_ok_insert.
  - unfold exec_insert. destruct (negb _); [done|].
    destruct (db !! t) as [tbl|] eqn:Ht; [|done].
    destruct (missing_column _ _); [done|].
    destruct (null_violation _ _) eqn:Hn; [done|].
    destruct (pk_taken _ _ _); [done|]. intros [= <- _].
    apply db_ok_insert; [done|]. unfold table_ok. cbn [tbl_columns tbl_rows].
    rewrite forallb_snoc. apply andb_true_iff. split; [by apply (Hdb t)|].
    unfold row_ok. by rewrite new_row_length, Nat.eqb_refl, Hn.
  - unfold exec_update. destruct (negb _); [done|].
    destruct sets as [|s sets]; [done|].
    destruct (db !! t) as [tbl|] eqn:Ht; [|done].
    destruct (missing_column _ _); [done|].
    destruct (negb _); [done|].
    destruct (first_null_violation _ _) eqn:Hn; [done|].
    destruct (_ && _); [done|]. intros [= <- _].
    apply db_ok_insert; [done|]. unfold table_ok. cbn [tbl_columns tbl_rows].
    apply forallb_forall. intros r' Hr'.
    apply in_map_iff in Hr' as (r & Hr' & Hr). subst r'.
    change (row_ok (tbl_columns tbl)
              (if holds (tbl_columns tbl) now (Some wc) r
               then apply_sets (tbl_columns tbl) now (s :: sets) r else r) = true).
    pose proof (Hdb t tbl Ht) as Hok. unfold table_ok in Hok.
    rewrite forallb_forall in Hok. specialize (Hok r Hr).
    destruct (holds (tbl_columns tbl) now (Some wc) r) eqn:Hhit; [|done].
    unfold row_ok in *. apply andb_true_iff in Hok as [Hl _].
    rewrite apply_sets_length, Hl. cbn [andb].
    rewrite (first_null_violation_rows _ _ _ Hn); [done|].
    apply in_map. apply filter_In. done.
  - unfold exec_select. destruct (negb _); [done|].
    destruct (db !! t); [|done]. destruct (missing_column _ _); [done|].
    destruct (negb _); [done|]. destruct (limit_rows _ _ _); [|done].
    by intros [= <- _].
  - unfold exec_count. destruct (negb _); [done|].
    destruct (db !! t); [|done]. destruct (missing_column _ _); [done|].
    destruct (negb _); [done|]. by intros [= <- _].
Qed.

End SqlFacts.

Module ModelsFacts.
Import Sql Psycopg2 Models SqlSpec ModelsSpec SqlFacts.

#[local] Arguments execute : simpl never.

(** *** [init_db] *)

Lemma execute_create cur t cols w :
  execute cur (CreateTableIfNotExists t cols) [] w =
  (Ok tt, World (store w) (clock w) (ensure_table t cols (txn w)) [] []
             (wire w ++ [EvExecute (CreateTableIfNotExists t cols) []])).
Proof.
  unfold execute. cbn [mogrify bind_stmt emit clock txn exec store wire].
  unfold exec_create, ensure_table. by destruct (txn w !! t).
Qed.

Lemma ensure_table_lookup t cols db : is_Some (ensure_table t cols db !! t).
Proof.
  unfold ensure_table. destruct (db !! t) eqn:E.
  - rewrite E. eauto.
  - rewrite lookup_insert_eq. eauto.
Qed.

Lemma ensure_table_keeps t cols db u tbl :
  db !! u = Some tbl -> ensure_table t cols db !! u = Some tbl.
Proof.
  intros H. unfold ensure_table. destruct (db !! t) eqn:E; [done|].
  rewrite lookup_insert_ne; [done|]. intros ->. congruence.
Qed.

Lemma ensure_table_present t cols db :
  is_Some (db !! t) -> ensure_table t cols db = db.
Proof. intros [x Hx]. unfold ensure_table. by rewrite Hx. Qed.

Lemma ensure_table_mono t cols db u :
  is_Some (db !! u) -> is_Some (ensure_table t cols db !! u).
Proof. intros [x Hx]. exists x. by apply ensure_table_keeps. Qed.

Lemma init_db_run w :
  exists w', init_db w = (Ok tt, w') /\ store w' = schema (store w) /\ clock w' = clock w.
Proof.
  unfold init_db, get_db_connection. cbn.
  do 4 (erewrite bind_ok by apply execute_create; cbn).
  eexists. split; [reflexivity|]. cbn. done.
Qed.

Lemma schema_tables db t : t ∈ tables -> is_Some (schema db !! t).
Proof.
  unfold tables, schema. rewrite !elem_of_cons, elem_of_nil.
  intros [->|[->|[->|[->|[]]]]];
    repeat first [apply ensure_table_lookup | apply ensure_table_mono].
Qed.

Lemma schema_present db :
  (forall t, t ∈ tables -> is_Some (db !! t)) -> schema db = db.
Proof.
  intros H. unfold schema.
  rewrite (ensure_table_present "workflows") by (apply H; set_solver).
  rewrite (ensure_table_present "knowledge_base") by (apply H; set_solver).
  rewrite (ensure_table_present "pending_approvals") by (apply H; set_solver).
  rewrite (ensure_table_present "workflow_results") by (apply H; set_solver).
  done.
Qed.

Lemma schema_keeps db u tbl : db !! u = Some tbl -> schema db !! u = Some tbl.
Proof. intros H. unfold schema. by do 4 apply ensure_table_keeps. Qed.

(** C9.  From every state of the store, [init_db] returns without error
    and leaves the four tables in place, keeping every table that was
    there; run again on the result it returns without error and leaves the
    store as it is. *)
Theorem init_db_idempotent (w : world) :
  exists w1 w2,
    init_db w = (Ok tt, w1)
    /\ (forall t, t ∈ tables -> is_Some (store w1 !! t))
    /\ (forall t tbl, store w !! t = Some tbl -> store w1 !! t = Some tbl)
    /\ init_db w1 = (Ok tt, w2)
    /\ store w2 = store w1.
Proof.
  destruct (init_db_run w) as (w1 & R1 & S1 & _).
  destruct (init_db_run w1) as (w2 & R2 & S2 & _).
  exists w1, w2. split; [done|]. rewrite S1.
  split; [apply schema_tables|].
  split; [apply schema_keeps|].
  split; [done|].
  rewrite S2, S1. apply schema_present, schema_tables.
Qed.

(** *** [create_workflow] and [get_workflow] *)








(** *** [update_workflow_status] *)

Lemma update_workflow_status_unfold workflow_id status progress stage message :
  update_workflow_status workflow_id status progress stage message =
  (conn <~ get_db_connection ;;
   cur <~ conn_cursor conn ;;
   execute cur
     (Update "workflows" (status_updates progress stage message) (Eq "id" Placeholder))
     (status_values workflow_id status progress stage message) ;;;
   commit conn ;;;
   cursor_close cur ;;;
   close conn)%se.
Proof.
  unfold update_workflow_status, status_updates, status_values.
  destruct (is_not_None progress), (truthy stage), (truthy message); reflexivity.
Qed.
















Section UpdateRows.
Variables (now : Z) (id : string) (status progress stage message : value).





End UpdateRows.


(** *** [get_pending_items] *)

Lemma get_pending_items_unfiltered w tbl workflow_id :
  truthy workflow_id = false ->
  store w !! "pending_approvals" = Some tbl ->
  tbl_columns tbl = pending_approvals_columns ->
  exists w',
    get_pending_items workflow_id w =
      (Ok (map (row_dict pending_names)
             (merge_sort (desc_by pending_approvals_columns "created_at")
                (List.filter is_pending (tbl_rows tbl)))), w')
    /\ store w' = store w.
Proof.
  intros Hf Ht Hc. destruct tbl as [cols rows serial]. cbn in Hc. subst cols.
  unfold get_pending_items, get_db_connection. rewrite Hf. cbn.
  erewrite bind_ok; cycle 1.
  { eapply execute_select; [reflexivity | exact Ht | reflexivity ..]. }
  cbn. eexists. split; [reflexivity|]. done.
Qed.

(** C10.  With the empty string as [workflow_id], [get_pending_items]
    runs the query without a workflow filter, as it does for [None]: it
    returns the pending rows of every workflow, newest first; a pending row
    is returned whatever its [workflow_id]. *)
Theorem get_pending_items_empty_string (w : world) (tbl : table) :
  store w !! "pending_approvals" = Some tbl ->
  tbl_columns tbl = pending_approvals_columns ->
  exists w' items,
    get_pending_items (VStr "") w = (Ok items, w')
    /\ get_pending_items (VStr "") w = get_pending_items VNone w
    /\ length items = length (List.filter is_pending (tbl_rows tbl))
    /\ (forall r, r ∈ tbl_rows tbl ->
         cell pending_approvals_columns r "status" = VStr "pending" ->
         row_dict pending_names r ∈ items).
Proof.
  intros Ht Hc.
  destruct (get_pending_items_unfiltered w tbl (VStr "") eq_refl Ht Hc) as (w' & R & _).
  exists w'. eexists. split; [exact R|]. split; [reflexivity|]. split.
  - rewrite length_map. apply Permutation_length, merge_sort_Permutation.
  - intros r Hr Hs. apply (list_elem_of_fmap_2 (row_dict pending_names)).
    rewrite merge_sort_Permutation. apply list_elem_of_In, filter_In.
    split; [by apply list_elem_of_In|].
    unfold is_pending, holds. cbn. unfold cell in Hs. cbn in Hs. rewrite Hs. reflexivity.
Qed.

(** *** [update_approval_status] *)




(** *** [get_stats] *)

Lemma filter_all cols now (rows : list row) :
  List.filter (holds cols now None) rows = rows.
Proof. induction rows as [|r rows IH]; [done|]. cbn. by rewrite IH. Qed.

Lemma filter_high now rows :
  List.filter
    (holds knowledge_base_columns now (Some (Eq "confidence_level" (Lit (VStr "high"))))) rows
  = List.filter is_high rows.
Proof.
  apply filter_ext. intros r. unfold holds, is_high, kb_cell. cbn [eval_cond eval_operand].
  unfold sql_eq. destruct (cell knowledge_base_columns r "confidence_level");
    first [ by destruct (bool_decide _) | by rewrite bool_decide_eq_false_2 ].
Qed.

Lemma filter_not_null_distinct now rows :
  distinct_values
    (map (fun r => cell knowledge_base_columns r "workflow_id")
       (List.filter (holds knowledge_base_columns now (Some (IsNotNull "workflow_id"))) rows))
  = workflow_ids rows.
Proof.
  unfold workflow_ids, kb_cell, distinct_values. f_equal.
  induction rows as [|r rows IH]; [done|].
  cbn [List.filter map]. unfold holds at 1. cbn [eval_cond].
  destruct (is_not_None (cell knowledge_base_columns r "workflow_id")) eqn:E;
    cbn [List.filter map].
  - rewrite E. f_equal. exact IH.
  - exact IH.
Qed.

Lemma get_stats_run w tbl :
  store w !! "knowledge_base" = Some tbl ->
  tbl_columns tbl = knowledge_base_columns ->
  let n := Z.of_nat (length (tbl_rows tbl)) in
  let h := Z.of_nat (length (List.filter is_high (tbl_rows tbl))) in
  let k := Z.of_nat (length (workflow_ids (tbl_rows tbl))) in
  exists w',
    get_stats w =
      (Ok [("total_items", VInt n); ("total_workflows", VInt k);
           ("total_matches", VInt n); ("match_rate", rate h n)], w')
    /\ store w' = store w.
Proof.
  intros Ht Hc. destruct tbl as [cols rows serial]. cbn in Hc. subst cols.
  cbn [tbl_rows]. unfold get_stats, get_db_connection. cbn.
  erewrite bind_ok; cycle 1.
  { eapply execute_count; [reflexivity | exact Ht | reflexivity ..]. }
  cbn -[cell holds distinct_values].
  erewrite bind_ok; cycle 1.
  { eapply execute_count; [reflexivity | exact Ht | reflexivity ..]. }
  cbn -[cell holds distinct_values].
  erewrite bind_ok; cycle 1.
  { eapply execute_count; [reflexivity | exact Ht | reflexivity ..]. }
  cbn [tbl_columns tbl_rows].
  rewrite filter_all, filter_high, filter_not_null_distinct.
  unfold rate, Float.py_truediv.
  destruct (0 <? Z.of_nat (length rows)) eqn:Hpos.
  - assert (Hz : (Z.of_nat (length rows) =? 0) = false) by lia. rewrite Hz.
    cbn -[Float.int_truediv Float.mul Float.round_float Float.of_int].
    eexists. split; [reflexivity|]. done.
  - cbn. eexists. split; [reflexivity|]. done.
Qed.

Lemma workflow_ids_spec rows :
  NoDup (workflow_ids rows)
  /\ forall v, v ∈ workflow_ids rows <->
       v <> VNone /\ exists r, r ∈ rows /\ kb_cell r "workflow_id" = v.
Proof.
  unfold workflow_ids, distinct_values. split; [apply NoDup_remove_dups|].
  intros v. rewrite elem_of_remove_dups, list_elem_of_In, filter_In, <- list_elem_of_In.
  rewrite list_elem_of_fmap. split.
  - intros [(r & -> & Hr) Hv]. split; [by intros E; rewrite E in Hv|]. eauto.
  - intros [Hv (r & Hr & <-)]. split; [eauto|]. by destruct (kb_cell r "workflow_id").
Qed.

(** C5, as the code has it.  On a [knowledge_base] table of N rows, H of
    them with confidence level 'high' and W distinct non-NULL workflow
    identifiers, [get_stats] returns total_items = N, total_workflows = W,
    total_matches = N, and as match_rate the binary64 value of
    [round(H / N * 100, 1)] (the quotient first, then the product) when
    N > 0, and 0 when N = 0. *)
Theorem get_stats_counts (w : world) (tbl : table) :
  store w !! "knowledge_base" = Some tbl ->
  tbl_columns tbl = knowledge_base_columns ->
  exists w' ids,
    let n := Z.of_nat (length (tbl_rows tbl)) in
    let h := Z.of_nat (length (List.filter is_high (tbl_rows tbl))) in
    get_stats w =
      (Ok [("total_items", VInt n); ("total_workflows", VInt (Z.of_nat (length ids)));
           ("total_matches", VInt n); ("match_rate", rate h n)], w')
    /\ NoDup ids
    /\ (forall v, v ∈ ids <->
          v <> VNone /\ exists r, r ∈ tbl_rows tbl /\ kb_cell r "workflow_id" = v)
    /\ (n = 0 -> rate h n = VInt 0)
    /\ (0 < n -> rate h n =
          VFloat (Float.round_float
                    (Float.mul (Float.int_truediv h n) (Float.of_int 100)) 1)).
Proof.
  intros Ht Hc. destruct (get_stats_run w tbl Ht Hc) as (w' & R & _).
  exists w', (workflow_ids (tbl_rows tbl)). cbn zeta.
  split; [exact R|]. destruct (workflow_ids_spec (tbl_rows tbl)) as [Hnd Hin].
  split; [exact Hnd|]. split; [exact Hin|].
  unfold rate. split; intros Hn.
  - by rewrite Hn.
  - by rewrite (proj2 (Z.ltb_lt _ _) Hn).
Qed.

(** C5 as the spec states it fails: with 23 of 80 items 'high' the exact
    percentage is 28.75, which [round(100 * 23 / 80, 1)] makes 28.8;
    [get_stats] computes 23 / 80 * 100 = 28.749999999999996 and returns
    28.7. *)
Lemma get_stats_rate_23_of_80 :
  exists s w',
    get_stats kb_23_of_80 = (Ok s, w')
    /\ py_get s "total_items" = Some (VInt 80)
    /\ py_get s "match_rate" = Some (VFloat (Float.div (Float.of_int 287) (Float.of_int 10)))
    /\ spec_rate 23 80 = VFloat (Float.div (Float.of_int 288) (Float.of_int 10))
    /\ py_get s "match_rate" <> Some (spec_rate 23 80).
Proof.
  eexists. eexists. split; [vm_compute; reflexivity|].
  repeat split; try (vm_compute; reflexivity).
  vm_compute. discriminate.
Qed.

(** *** [search_items] *)

(** C4.  The query text goes into the ILIKE pattern as it is, so an
    underscore or a percent sign in it is a wildcard: the query "st_el"
    returns the item named "steel", none of whose three fields contains
    "st_el". *)
Theorem search_items_wildcard :
  (search_items "st_el" (VInt 50) kb_steel).1
  = Ok [row_dict (map col_name knowledge_base_columns)
          [VInt 1; VStr "steel"; VStr "P-100"; VStr "rolled sheet"; VNone;
           VStr "high"; VNone; VTime 0; VNone; VNone; VTime 0; VNone]]
  /\ ci_substring "st_el" "steel" = false
  /\ ci_substring "st_el" "P-100" = false
  /\ ci_substring "st_el" "rolled sheet" = false.
Proof.
  split; [vm_compute; reflexivity|].
  split; [vm_compute; reflexivity|].
  split; vm_compute; reflexivity.
Qed.

(** *** The theorems at concrete stores *)



Lemma get_pending_items_empty_string_witness :
  exists w' items,
    get_pending_items (VStr "") two_pending = (Ok items, w')
    /\ length items = 2%nat.
Proof.
  destruct (get_pending_items_empty_string two_pending (table_of "pending_approvals" two_pending))
    as (w' & items & H1 & _ & H2 & _).
  - vm_compute; reflexivity.
  - vm_compute; reflexivity.
  - exists w', items. split; [exact H1|]. rewrite H2. vm_compute; reflexivity.
Defined.

Lemma get_stats_counts_witness :
  exists s w',
    get_stats kb_23_of_80 = (Ok s, w')
    /\ py_get s "total_items" = Some (VInt 80)
    /\ py_get s "total_matches" = Some (VInt 80)
    /\ py_get s "match_rate" = Some (rate 23 80).
Proof.
  destruct (get_stats_counts kb_23_of_80 (table_of "knowledge_base" kb_23_of_80))
    as (w' & ids & H1 & _).
  - vm_compute; reflexivity.
  - vm_compute; reflexivity.
  - cbv zeta in H1. eexists. exists w'. split; [exact H1|].
    split; [vm_compute; reflexivity|]. split; [vm_compute; reflexivity|].
    vm_compute; reflexivity.
Defined.




Lemma parse_like_cons c p :
  parse_like (c :: p) =
  if Ascii.eqb c "\" then
    match p with
    | [] => None
    | d :: p' => cons (PChar d) <$> parse_like p'
    end
  else if Ascii.eqb c "%" then cons PAny <$> parse_like p
  else if Ascii.eqb c "_" then cons POne <$> parse_like p
  else cons (PChar c) <$> parse_like p.
Proof. reflexivity. Qed.

(** A pattern that ends in [%] never ends with a lone escape character. *)
Lemma parse_like_percent_end q :
  is_Some (parse_like (q ++ ["%"%char]))
  /\ forall c, is_Some (parse_like (c :: q ++ ["%"%char])).
Proof.
  induction q as [|d q [IH1 IH2]].
  - split; [by eexists|]. intros c. cbn.
    destruct (Ascii.eqb c "\"); [by eexists|].
    destruct (Ascii.eqb c "%"); [by eexists|].
    destruct (Ascii.eqb c "_"); by eexists.
  - split; [apply IH2|]. intros c. rewrite parse_like_cons. cbn [app].
    destruct IH1 as [x Hx]. destruct (IH2 d) as [y Hy]. rewrite Hx, Hy.
    destruct (Ascii.eqb c "\"); [by eexists|].
    destruct (Ascii.eqb c "%"); [by eexists|].
    destruct (Ascii.eqb c "_"); by eexists.
Qed.

Lemma search_cond_patterns_ok q :
  cond_patterns_ok (search_cond (VStr (contains_pattern q))) = true.
Proof.
  assert (H : is_Some (parse_like (list_ascii_of_string (contains_pattern q)))).
  { unfold contains_pattern. rewrite !list_ascii_of_string_app.
    apply (parse_like_percent_end (list_ascii_of_string q)). }
  destruct H as [x Hx]. cbn. by rewrite Hx.
Qed.

Lemma search_items_run w tbl q (k : Z) :
  store w !! "knowledge_base" = Some tbl ->
  tbl_columns tbl = knowledge_base_columns ->
  0 <= k ->
  let wc := if truthy (VStr q)
            then Some (search_cond (VStr (contains_pattern q)))
            else None in
  exists all w',
    search_items q (VInt k) w = (Ok (map (row_dict kb_names) (take (Z.to_nat k) all)), w')
    /\ store w' = store w
    /\ Sorted (desc_by knowledge_base_columns "created_at") all
    /\ all ≡ₚ List.filter (holds knowledge_base_columns (clock w) wc) (tbl_rows tbl).
Proof.
  intros Ht Hc Hk wc. destruct tbl as [cols rows serial]. cbn in Hc. subst cols.
  destruct (select_rows knowledge_base_columns (clock w) wc "created_at" k rows Hk)
    as (all & Hsel & Hsorted & Hperm).
  exists all. unfold search_items, get_db_connection. cbn [bind connect conn_cursor].
  unfold wc in *. destruct (truthy (VStr q)).
  - erewrite bind_ok; cycle 1.
    { eapply execute_select;
        [reflexivity | exact Ht | reflexivity | reflexivity
        | apply search_cond_patterns_ok | exact Hsel]. }
    cbn. eexists. split; [reflexivity|]. done.
  - erewrite bind_ok; cycle 1.
    { eapply execute_select; [reflexivity | exact Ht | reflexivity .. | exact Hsel]. }
    cbn. eexists. split; [reflexivity|]. done.
Qed.


(** X2.  For the empty query, [search_items] returns the first [k] of all the
    rows, newest first. *)
Theorem search_items_empty_query (w : world) (tbl : table) (k : Z) :
  store w !! "knowledge_base" = Some tbl ->
  tbl_columns tbl = knowledge_base_columns ->
  0 <= k ->
  exists all w',
    search_items "" (VInt k) w = (Ok (map (row_dict kb_names) (take (Z.to_nat k) all)), w')
    /\ Sorted (desc_by knowledge_base_columns "created_at") all
    /\ all ≡ₚ tbl_rows tbl.
Proof.
  intros Ht Hc Hk.
  destruct (search_items_run w tbl "" k Ht Hc Hk) as (all & w' & R & _ & Hs & Hp).
  cbn [truthy] in Hp. rewrite filter_all in Hp. eauto 10.
Qed.


Lemma search_items_empty_query_witness :
  exists all w',
    search_items "" (VInt 50) kb_23_of_80
    = (Ok (map (row_dict kb_names) (take 50 all)), w')
    /\ length all = 80%nat.
Proof.
  destruct (search_items_empty_query kb_23_of_80 (table_of "knowledge_base" kb_23_of_80) 50)
    as (all & w' & H1 & _ & H2).
  - vm_compute; reflexivity.
  - vm_compute; reflexivity.
  - lia.
  - exists all, w'. split; [exact H1|]. rewrite H2. vm_compute; reflexivity.
Defined.

(** *** [update_approval_status] with identifiers *)






(** *** [get_pending_items] for one workflow, and [get_all_workflows] *)



(** X9.  [get_all_workflows] returns the first [k] workflows, newest first. *)
Theorem get_all_workflows_recent (w : world) (tbl : table) (k : Z) :
  store w !! "workflows" = Some tbl ->
  tbl_columns tbl = workflows_columns ->
  0 <= k ->
  exists all w',
    get_all_workflows (VInt k) w
    = (Ok (map (row_dict (map col_name workflows_columns)) (take (Z.to_nat k) all)), w')
    /\ Sorted (desc_by workflows_columns "created_at") all
    /\ all ≡ₚ tbl_rows tbl.
Proof.
  intros Ht Hc Hk. destruct tbl as [cols rows serial]. cbn in Hc. subst cols.
  destruct (select_rows workflows_columns (clock w) None "created_at" k rows Hk)
    as (all & Hsel & Hsorted & Hperm).
  rewrite filter_all in Hperm.
  exists all. unfold get_all_workflows, get_db_connection. cbn [bind connect conn_cursor].
  erewrite bind_ok; cycle 1.
  { eapply execute_select; [reflexivity | exact Ht | reflexivity .. | exact Hsel]. }
  cbn. eexists. split; [reflexivity|]. done.
Qed.



Lemma get_all_workflows_recent_witness :
  exists all w',
    get_all_workflows (VInt 50) one_workflow
    = (Ok (map (row_dict (map col_name workflows_columns)) (take 50 all)), w')
    /\ length all = 1%nat.
Proof.
  destruct (get_all_workflows_recent one_workflow (table_of "workflows" one_workflow) 50)
    as (all & w' & H1 & _ & H2).
  - vm_compute; reflexivity.
  - vm_compute; reflexivity.
  - lia.
  - exists all, w'. split; [exact H1|]. rewrite H2. vm_compute; reflexivity.
Defined.

(** *** The constraints of the store are kept by every function *)

Lemma keeps_ret {A : Type} (a : A) : keeps (ret a).
Proof. by intros w. Qed.

Lemma keeps_raise {A : Type} e : keeps (@raise world A e).
Proof. by intros w. Qed.

Lemma keeps_lift {A : Type} (r : result A) : keeps (lift r).
Proof. by intros w. Qed.

Lemma keeps_bind {A B : Type} (m : SE world A) (k : A -> SE world B) :
  keeps m -> (forall a, keeps (k a)) -> keeps (bind m k).
Proof.
  intros Hm Hk w Hw. unfold bind. specialize (Hm w Hw).
  destruct (m w) as [[a|e] w1]; [apply Hk|]; done.
Qed.

Lemma keeps_connect : keeps connect.
Proof. intros w [Hs _]. by split. Qed.

Lemma keeps_conn_cursor conn : keeps (conn_cursor conn).
Proof. by intros w. Qed.

Lemma keeps_execute cur q args : keeps (execute cur q args).
Proof.
  intros w [Hs Ht]. unfold execute. destruct (mogrify q args) as [q'|]; [|done].
  cbn [emit clock txn store].
  destruct (exec _ _ _) as [[db' [names rows]]|e] eqn:E; [|done].
  split; [done|]. cbn. eapply exec_keeps_constraints; [exact Ht|exact E].
Qed.

Lemma keeps_fetchone cur : keeps (fetchone cur).
Proof. intros w Hw. unfold fetchone. by destruct (cur_rows w). Qed.

Lemma keeps_fetchall cur : keeps (fetchall cur).
Proof. by intros w. Qed.

Lemma keeps_description_names cur : keeps (description_names cur).
Proof. by intros w. Qed.

Lemma keeps_commit conn : keeps (commit conn).
Proof. intros w [_ Ht]. by split. Qed.

Lemma keeps_cursor_close cur : keeps (cursor_close cur).
Proof. by intros w. Qed.

Lemma keeps_close conn : keeps (close conn).
Proof. by intros w. Qed.

Lemma keeps_fetchone_0 cur : keeps (fetchone_0 cur).
Proof.
  apply keeps_bind; [apply keeps_fetchone|].
  intros [[|v r]|]; first [apply keeps_ret | apply keeps_raise].
Qed.

Create HintDb keeps discriminated.
#[local] Hint Resolve keeps_ret keeps_raise keeps_lift keeps_connect keeps_conn_cursor
  keeps_execute keeps_fetchone keeps_fetchall keeps_description_names keeps_commit
  keeps_cursor_close keeps_close keeps_fetchone_0 : keeps.

Ltac solve_keeps :=
  repeat first
    [ solve [auto with keeps]
    | match goal with |- keeps (if ?b then _ else _) => destruct b end
    | apply keeps_bind; [|intros ?] ].

(** X10.  Every function of [models.py] leaves the store within its constraints,
    whether it returns or raises. *)
Theorem models_keep_constraints :
  keeps init_db
  /\ (forall id mode wi item, keeps (create_workflow id mode wi item))
  /\ (forall id status progress stage message,
        keeps (update_workflow_status id status progress stage message))
  /\ (forall id, keeps (get_workflow id))
  /\ (forall limit, keeps (get_all_workflows limit))
  /\ (forall a b c d e f g h i, keeps (add_item a b c d e f g h i))
  /\ (forall q limit, keeps (search_items q limit))
  /\ keeps get_stats
  /\ (forall id data, keeps (add_pending_item id data))
  /\ (forall id, keeps (get_pending_items id))
  /\ (forall ids status reviewer notes, keeps (update_approval_status ids status reviewer notes)).
Proof.
  repeat match goal with |- _ /\ _ => split end; intros;
    first [ rewrite update_workflow_status_unfold | idtac ];
    unfold init_db, create_workflow, get_workflow, get_all_workflows, add_item,
      search_items, get_stats, add_pending_item, get_pending_items,
      update_approval_status, get_db_connection;
    solve_keeps.
Qed.

Lemma world_ok_empty : world_ok empty_world.
Proof. split; intros t tbl; cbn; by rewrite lookup_empty. Qed.

(** *** Statements that the store refuses *)







(** *** [update_workflow_status] on a workflow that is not there, and
    without a status *)






(** *** Before [init_db] *)




(** *** What a call may do to the store *)

Lemma reads_only_bind {A B : Type} (m : SE world A) (k : A -> SE world B) :
  reads_only m -> (forall a, reads_only (k a)) -> reads_only (bind m k).
Proof.
  intros Hm Hk w. unfold bind. specialize (Hm w).
  destruct (m w) as [[a|e] w1]; [|done]. cbn in Hm. by rewrite Hk.
Qed.

Lemma reads_only_ret {A : Type} (a : A) : reads_only (@ret world A a).
Proof. by intros w. Qed.

Lemma reads_only_raise {A : Type} e : reads_only (@raise world A e).
Proof. by intros w. Qed.

Lemma reads_only_lift {A : Type} (r : result A) : reads_only (lift r).
Proof. by intros w. Qed.

Lemma reads_only_connect : reads_only connect.
Proof. by intros w. Qed.

Lemma reads_only_conn_cursor conn : reads_only (conn_cursor conn).
Proof. by intros w. Qed.

Lemma reads_only_execute cur q args : reads_only (execute cur q args).
Proof.
  intros w. unfold execute. destruct (mogrify q args); [|done].
  cbn [emit clock txn]. by destruct (exec _ _ _) as [[db' [names rows]]|e].
Qed.

Lemma reads_only_fetchone cur : reads_only (fetchone cur).
Proof. intros w. unfold fetchone. by destruct (cur_rows w). Qed.

Lemma reads_only_fetchall cur : reads_only (fetchall cur).
Proof. by intros w. Qed.

Lemma reads_only_description_names cur : reads_only (description_names cur).
Proof. by intros w. Qed.

Lemma reads_only_cursor_close cur : reads_only (cursor_close cur).
Proof. by intros w. Qed.

Lemma reads_only_close conn : reads_only (close conn).
Proof. by intros w. Qed.

Lemma reads_only_fetchone_0 cur : reads_only (fetchone_0 cur).
Proof.
  apply reads_only_bind; [apply reads_only_fetchone|].
  intros [[|v r]|]; first [apply reads_only_ret | apply reads_only_raise].
Qed.


Lemma never_raises_commit conn : never_raises (commit conn).
Proof. intros w. by exists tt. Qed.

Lemma never_raises_cursor_close cur : never_raises (cursor_close cur).
Proof. intros w. by exists tt. Qed.

Lemma never_raises_close conn : never_raises (close conn).
Proof. intros w. by exists tt. Qed.



Create HintDb store discriminated.
#[local] Hint Resolve reads_only_ret reads_only_raise reads_only_lift reads_only_connect
  reads_only_conn_cursor reads_only_execute reads_only_fetchone reads_only_fetchall
  reads_only_description_names reads_only_cursor_close reads_only_close
  reads_only_fetchone_0 never_raises_commit never_raises_cursor_close
  never_raises_close : store.




(** *** LIMIT without a count, and with a negative one *)



(** *** Adding an item and finding it *)





(** *** Items awaiting review: adding, listing, deciding *)







(** *** The statistics at their bounds *)

Lemma int_truediv_same n :
  0 < n -> Float.int_truediv n n = S754_finite false 4503599627370496 (-52).
Proof.
  intros Hn. unfold Float.int_truediv.
  replace (n <? 0) with false by lia. replace (n =? 0) with false by lia.
  rewrite Z.abs_eq by lia. unfold SFdiv_core_binary. cbv zeta.
  replace (Zdigits2 n + 0 - (Zdigits2 n + 0)) with 0 by lia.
  change (fexp Float.prec Float.emax 0 `min` (0 - 0)) with (-53).
  change (0 - 0 - -53) with 53. cbv beta iota.
  rewrite Z.shiftl_mul_pow2 by lia.
  assert (E : Z.div_eucl (n * 2 ^ 53) n = (2 ^ 53, 0)).
  { pose proof (Z.div_mul (2 ^ 53) n ltac:(lia)) as Hq.
    pose proof (Z.mod_mul (2 ^ 53) n ltac:(lia)) as Hr.
    rewrite Z.mul_comm in Hq, Hr. unfold Z.div, Z.modulo in Hq, Hr.
    destruct (Z.div_eucl (n * 2 ^ 53) n) as [q r]. by subst. }
  rewrite E.
  replace (new_location n 0) with loc_Exact; [vm_compute; reflexivity|].
  unfold new_location. by destruct (Z.even n).
Qed.

Lemma rate_all n : 0 < n -> rate n n = VFloat (Float.of_int 100).
Proof.
  intros Hn. unfold rate. replace (0 <? n) with true by lia.
  rewrite int_truediv_same by done. vm_compute. reflexivity.
Qed.

Lemma rate_none n : 0 < n -> rate 0 n = VFloat (S754_zero false).
Proof.
  intros Hn. unfold rate, Float.int_truediv. replace (0 <? n) with true by lia.
  replace (n <? 0) with false by lia. vm_compute. reflexivity.
Qed.

Lemma remove_dups_length_le (l : list value) : (length (remove_dups l) <= length l)%nat.
Proof.
  induction l as [|x l IH]; [done|]. cbn. destruct (decide_rel _ _ _); cbn; lia.
Qed.

Lemma filter_all_true {A : Type} (p : A -> bool) (l : list A) :
  Forall (fun x => p x = true) l -> List.filter p l = l.
Proof. induction 1 as [|x l Hx _ IH]; [done|]. cbn. by rewrite Hx, IH. Qed.

Lemma filter_all_false {A : Type} (p : A -> bool) (l : list A) :
  Forall (fun x => p x = false) l -> List.filter p l = [].
Proof. induction 1 as [|x l Hx _ IH]; [done|]. cbn. by rewrite Hx, IH. Qed.

(** X26.  On a knowledge base that is not empty, [get_stats] returns a number
    of workflows no larger than the number of items, a match rate of
    exactly 100.0 when every item has confidence level 'high', and of
    exactly 0.0 when none has. *)
Theorem get_stats_bounds (w : world) (tbl : table) :
  store w !! "knowledge_base" = Some tbl ->
  tbl_columns tbl = knowledge_base_columns ->
  tbl_rows tbl <> [] ->
  exists s w' k,
    get_stats w = (Ok s, w')
    /\ py_get s "total_items" = Some (VInt (Z.of_nat (length (tbl_rows tbl))))
    /\ py_get s "total_workflows" = Some (VInt k)
    /\ 0 <= k <= Z.of_nat (length (tbl_rows tbl))
    /\ (Forall (fun r => kb_cell r "confidence_level" = VStr "high") (tbl_rows tbl) ->
        py_get s "match_rate" = Some (VFloat (Float.of_int 100)))
    /\ (Forall (fun r => kb_cell r "confidence_level" <> VStr "high") (tbl_rows tbl) ->
        py_get s "match_rate" = Some (VFloat (S754_zero false))).
Proof.
  intros Ht Hc Hne. destruct (get_stats_run w tbl Ht Hc) as (w' & R & _).
  cbv zeta in R. eexists _, w', _. split; [exact R|].
  assert (Hpos : 0 < Z.of_nat (length (tbl_rows tbl))).
  { destruct (tbl_rows tbl); [done|cbn; lia]. }
  split; [reflexivity|]. split; [reflexivity|]. split.
  { split; [lia|]. apply inj_le. unfold workflow_ids, distinct_values.
    etrans; [apply remove_dups_length_le|].
    etrans; [apply List.filter_length_le|]. by rewrite length_map. }
  split; intros Hall; cbn [py_get String.eqb Ascii.eqb Bool.eqb].
  - rewrite filter_all_true; [by rewrite rate_all|].
    eapply List.Forall_impl; [|exact Hall]. intros r Hr. unfold is_high.
    by apply bool_decide_eq_true.
  - rewrite filter_all_false; [by rewrite rate_none|].
    eapply List.Forall_impl; [|exact Hall]. intros r Hr. unfold is_high.
    by apply bool_decide_eq_false.
Qed.

(** *** The identifiers that the sequences give out *)

Lemma bind_sets_names sets : forall ps sets' ps',
  bind_sets sets ps = Some (sets', ps') -> map fst sets' = map fst sets.
Proof.
  induction sets as [|[n o] sets IH]; intros ps sets' ps'; cbn.
  - by intros [= <- _].
  - destruct (bind_operand o ps) as [[o' ps1]|]; [|done].
    destruct (bind_sets sets ps1) as [[sets1 ps2]|] eqn:E; [|done].
    intros [= <- _]. cbn. f_equal. by eapply IH.
Qed.

Lemma mogrify_leaves_ids q args q' :
  mogrify q args = Some q' -> leaves_ids q -> leaves_ids q'.
Proof.
  unfold mogrify. destruct (bind_stmt q args) as [[q1 [|]]|] eqn:E; try done.
  intros [= <-]. destruct q as [t cols|t ns vals|t sets wc|t wc o l|a t wc]; cbn in E.
  - by injection E as <-.
  - destruct (bind_operands vals args) as [[vals' ps']|]; [|done]. by injection E as <-.
  - destruct (bind_sets sets args) as [[sets' ps']|] eqn:Es; [|done].
    destruct (bind_cond wc ps') as [[w' ps'']|]; [|done]. injection E as <-.
    cbn. by rewrite (bind_sets_names _ _ _ _ Es).
  - destruct (bind_opt_cond wc args) as [[w' ps']|]; [|done].
    destruct l as [l|]; [destruct (bind_operand l ps') as [[l' ps'']|]; [|done]|];
      by injection E as <-.
  - destruct (bind_opt_cond wc args) as [[w' ps']|]; [|done]. by injection E as <-.
Qed.

Lemma assoc_absent ns (vs : list value) n :
  existsb (String.eqb n) ns = false -> assoc (py_zip ns vs) n = None.
Proof.
  revert vs. induction ns as [|k ns IH]; intros vs; [done|].
  cbn [existsb]. intros [Hk Hns]%orb_false_elim.
  destruct vs as [|v vs]; [done|]. cbn. rewrite String.eqb_sym, Hk. by apply IH.
Qed.

Lemma col_index_same cols n m i :
  col_index cols n = Some i -> col_index cols m = Some i -> n = m.
Proof.
  revert i. induction cols as [|c cs IH]; intros i; [done|]. cbn.
  destruct (String.eqb (col_name c) n) eqn:En, (String.eqb (col_name c) m) eqn:Em.
  - apply String.eqb_eq in En, Em. congruence.
  - intros [= <-]. by destruct (col_index cs m).
  - destruct (col_index cs n); [|done]. by intros [= <-].
  - destruct (col_index cs n) as [j|] eqn:Hn; [|done].
    destruct (col_index cs m) as [j'|] eqn:Hm; [|done].
    cbn. intros [= <-] [= <-]. by eapply IH.
Qed.

Lemma set_cell_other cols r n v m :
  n <> m -> cell cols (set_cell cols r n v) m = cell cols r m.
Proof.
  intros Hne. unfold cell, set_cell.
  destruct (col_index cols n) as [i|] eqn:Hi; [|done].
  destruct (col_index cols m) as [j|] eqn:Hj; [|done].
  rewrite list_lookup_insert_ne; [done|].
  intros <-. apply Hne. by eapply col_index_same.
Qed.

Lemma apply_sets_other cols now sets r m :
  existsb (String.eqb m) (map fst sets) = false ->
  cell cols (apply_sets cols now sets r) m = cell cols r m.
Proof.
  unfold apply_sets. revert r. induction sets as [|[n o] sets IH]; intros r; [done|].
  cbn [map fst existsb fold_left]. intros [Hn Hs]%orb_false_elim.
  rewrite IH by done. apply set_cell_other. intros ->. by rewrite String.eqb_refl in Hn.
Qed.

Lemma serial_table_facts t cols :
  (t, cols) ∈ serial_tables ->
  col_index cols "id" = Some 0%nat
  /\ (forall now serial given, assoc given "id" = None ->
        exists rest, new_row now serial cols given = VInt serial :: rest)
  /\ (forall given, assoc given "id" = None -> uses_serial cols given = true).
Proof.
  unfold serial_tables. rewrite !elem_of_cons, elem_of_nil.
  intros [[= -> ->]|[[= -> ->]|[]]];
    (split; [reflexivity|]; split; intros;
     [ unfold new_row; cbn [map col_name knowledge_base_columns pending_approvals_columns];
       rewrite H; eexists; reflexivity
     | unfold uses_serial; cbn; by rewrite H ]).
Qed.

(** A statement that leaves the [id] column to the store keeps the
    sequences ahead of the rows. *)
Lemma exec_keeps_sequences now q db db' rs :
  leaves_ids q -> sequences_ok db -> exec now q db = Ok (db', rs) -> sequences_ok db'.
Proof.
  intros Hq Hdb. destruct q as [t cols|t ns vals|t sets wc|t wc o l|a t wc]; cbn [exec].
  - unfold exec_create. destruct (db !! t) eqn:Ht; intros [= <- _]; [done|].
    intros u cols' tbl Hu. destruct (decide (t = u)) as [->|Hne].
    + rewrite lookup_insert_eq. intros [= <-]. split; [by apply Hq|]. constructor.
    + rewrite lookup_insert_ne by done. by apply Hdb.
  - unfold exec_insert. destruct (negb _); [done|].
    destruct (db !! t) as [tbl|] eqn:Ht; [|done].
    destruct (missing_column _ _); [done|].
    destruct (null_violation _ _); [done|].
    destruct (pk_taken _ _ _); [done|]. intros [= <- _].
    intros u cols' tbl' Hu. destruct (decide (t = u)) as [->|Hne].
    + rewrite lookup_insert_eq. intros [= <-].
      destruct (Hdb u cols' tbl Hu Ht) as [Hc Hids]. split; [done|].
      destruct (serial_table_facts u cols' Hu) as (Hi & Hrow & Huses).
      assert (Hassoc : assoc (py_zip ns (map (eval_operand now) vals)) "id" = None)
        by (apply assoc_absent; by eapply Hq).
      unfold ids_issued in *. cbn [tbl_columns tbl_rows tbl_serial]. rewrite Hc in *.
      rewrite (Huses _ Hassoc). apply Forall_app. split.
      * eapply List.Forall_impl; [|exact Hids]. intros r (z & Hz & Hlt).
        exists z. split; [done|lia].
      * constructor; [|constructor].
        destruct (Hrow now (tbl_serial tbl) _ Hassoc) as (rest & ->).
        exists (tbl_serial tbl). split; [|lia]. unfold cell. by rewrite Hi.
    + rewrite lookup_insert_ne by done. by apply Hdb.
  - unfold exec_update. destruct (negb _); [done|].
    destruct sets as [|s sets]; [done|].
    destruct (db !! t) as [tbl|] eqn:Ht; [|done].
    destruct (missing_column _ _); [done|].
    destruct (negb _); [done|].
    destruct (first_null_violation _ _); [done|].
    destruct (_ && _); [done|]. intros [= <- _].
    intros u cols' tbl' Hu. destruct (decide (t = u)) as [->|Hne].
    + rewrite lookup_insert_eq. intros [= <-].
      destruct (Hdb u cols' tbl Hu Ht) as [Hc Hids]. split; [done|].
      unfold ids_issued in *. cbn [tbl_columns tbl_rows tbl_serial].
      apply List.Forall_map. eapply List.Forall_impl; [|exact Hids].
      intros r (z & Hz & Hlt). exists z. split; [|done].
      match goal with |- context [if ?b then _ else _] => destruct b end; [|done].
      change (cell (tbl_columns tbl) (apply_sets (tbl_columns tbl) now (s :: sets) r) "id"
              = VInt z).
      rewrite apply_sets_other; [done|]. by eapply Hq.
    + rewrite lookup_insert_ne by done. by apply Hdb.
  - unfold exec_select. destruct (negb _); [done|].
    destruct (db !! t); [|done]. destruct (missing_column _ _); [done|].
    destruct (negb _); [done|]. destruct (limit_rows _ _ _); [|done].
    by intros [= <- _].
  - unfold exec_count. destruct (negb _); [done|].
    destruct (db !! t); [|done]. destruct (missing_column _ _); [done|].
    destruct (negb _); [done|]. by intros [= <- _].
Qed.

Lemma stays_ahead_ret {A : Type} (a : A) : stays_ahead (ret a).
Proof. by intros w. Qed.

Lemma stays_ahead_raise {A : Type} e : stays_ahead (@raise world A e).
Proof. by intros w. Qed.

Lemma stays_ahead_lift {A : Type} (r : result A) : stays_ahead (lift r).
Proof. by intros w. Qed.

Lemma stays_ahead_bind {A B : Type} (m : SE world A) (k : A -> SE world B) :
  stays_ahead m -> (forall a, stays_ahead (k a)) -> stays_ahead (bind m k).
Proof.
  intros Hm Hk w Hw. unfold bind. specialize (Hm w Hw).
  destruct (m w) as [[a|e] w1]; [apply Hk|]; done.
Qed.

Lemma stays_ahead_connect : stays_ahead connect.
Proof. intros w [Hs _]. by split. Qed.

Lemma stays_ahead_conn_cursor conn : stays_ahead (conn_cursor conn).
Proof. by intros w. Qed.

Lemma stays_ahead_execute cur q args : leaves_ids q -> stays_ahead (execute cur q args).
Proof.
  intros Hq w [Hs Ht]. unfold execute. destruct (mogrify q args) as [q'|] eqn:Hm; [|done].
  cbn [emit clock txn store].
  destruct (exec _ _ _) as [[db' [names rows]]|e] eqn:E; [|done].
  split; [done|]. cbn. eapply exec_keeps_sequences; [|exact Ht|exact E].
  by eapply mogrify_leaves_ids.
Qed.

Lemma stays_ahead_fetchone cur : stays_ahead (fetchone cur).
Proof. intros w Hw. unfold fetchone. by destruct (cur_rows w). Qed.

Lemma stays_ahead_fetchall cur : stays_ahead (fetchall cur).
Proof. by intros w. Qed.

Lemma stays_ahead_description_names cur : stays_ahead (description_names cur).
Proof. by intros w. Qed.

Lemma stays_ahead_commit conn : stays_ahead (commit conn).
Proof. intros w [_ Ht]. by split. Qed.

Lemma stays_ahead_cursor_close cur : stays_ahead (cursor_close cur).
Proof. by intros w. Qed.

Lemma stays_ahead_close conn : stays_ahead (close conn).
Proof. by intros w. Qed.

Lemma stays_ahead_fetchone_0 cur : stays_ahead (fetchone_0 cur).
Proof.
  apply stays_ahead_bind; [apply stays_ahead_fetchone|].
  intros [[|v r]|]; first [apply stays_ahead_ret | apply stays_ahead_raise].
Qed.

Create HintDb ahead discriminated.
#[local] Hint Resolve stays_ahead_ret stays_ahead_raise stays_ahead_lift stays_ahead_connect
  stays_ahead_conn_cursor stays_ahead_fetchone stays_ahead_fetchall
  stays_ahead_description_names stays_ahead_commit stays_ahead_cursor_close
  stays_ahead_close stays_ahead_fetchone_0 : ahead.

Ltac solve_leaves_ids :=
  first
    [ exact I
    | let cols := fresh in let H := fresh in
      intros cols H;
      first
        [ reflexivity
        | unfold serial_tables in H; rewrite !elem_of_cons, elem_of_nil in H;
          destruct H as [[= <-]|[[= <-]|[]]]; reflexivity
        | unfold serial_tables in H; rewrite !elem_of_cons, elem_of_nil in H;
          by destruct H as [[=]|[[=]|[]]] ] ].

Ltac solve_stays_ahead :=
  repeat first
    [ solve [auto with ahead]
    | match goal with |- stays_ahead (if ?b then _ else _) => destruct b end
    | apply stays_ahead_execute; cbn [leaves_ids]; solve_leaves_ids
    | apply stays_ahead_bind; [|intros ?] ].

Lemma ids_issued_unused tbl : ids_issued tbl -> serial_unused tbl.
Proof.
  unfold ids_issued, serial_unused. apply List.Forall_impl.
  intros r (z & -> & Hz) [= E]. lia.
Qed.

(** X27.  Every function of [models.py] leaves the [id] of a new item to the
    sequence of its table and never changes an [id].  So on a store that
    [init_db] and these functions have built from nothing, the sequences
    of [knowledge_base] and [pending_approvals] stay ahead of every row:
    the next identifier is that of no row, and [add_item] and
    [add_pending_item] never collide with an item that is there. *)
Theorem sequences_stay_ahead :
  ahead empty_world
  /\ (stays_ahead init_db
      /\ (forall id mode wi item, stays_ahead (create_workflow id mode wi item))
      /\ (forall id status progress stage message,
            stays_ahead (update_workflow_status id status progress stage message))
      /\ (forall id, stays_ahead (get_workflow id))
      /\ (forall limit, stays_ahead (get_all_workflows limit))
      /\ (forall a b c d e f g h i, stays_ahead (add_item a b c d e f g h i))
      /\ (forall q limit, stays_ahead (search_items q limit))
      /\ stays_ahead get_stats
      /\ (forall id data, stays_ahead (add_pending_item id data))
      /\ (forall id, stays_ahead (get_pending_items id))
      /\ (forall ids status reviewer notes,
            stays_ahead (update_approval_status ids status reviewer notes)))
  /\ (forall w t cols tbl,
        ahead w -> (t, cols) ∈ serial_tables -> store w !! t = Some tbl ->
        tbl_columns tbl = cols /\ serial_unused tbl).
Proof.
  split; [|split].
  - split; intros t cols tbl _; cbn; by rewrite lookup_empty.
  - repeat match goal with |- _ /\ _ => split end; intros;
      first [ rewrite update_workflow_status_unfold | idtac ];
      unfold init_db, create_workflow, get_workflow, get_all_workflows, add_item,
        search_items, get_stats, add_pending_item, get_pending_items,
        update_approval_status, get_db_connection;
      solve_stays_ahead.
  - intros w t cols tbl [Hs _] Ht Hl. destruct (Hs t cols tbl Ht Hl) as [Hc Hi].
    split; [done|]. by apply ids_issued_unused.
Qed.

(** *** The further theorems at concrete stores *)









Lemma get_stats_bounds_witness :
  exists s w',
    get_stats kb_steel = (Ok s, w')
    /\ py_get s "total_items" = Some (VInt 1)
    /\ py_get s "match_rate" = Some (VFloat (Float.of_int 100)).
Proof.
  destruct (get_stats_bounds kb_steel (table_of "knowledge_base" kb_steel))
    as (s & w' & k & H1 & H2 & _ & _ & H3 & _).
  - vm_compute; reflexivity.
  - vm_compute; reflexivity.
  - vm_compute. discriminate.
  - exists s, w'. split; [exact H1|]. split; [exact H2|]. apply H3.
    vm_compute. repeat constructor.
Defined.

Lemma sequences_stay_ahead_witness :
  serial_unused (table_of "pending_approvals" two_pending).
Proof.
  destruct sequences_stay_ahead as (H0 & (Hinit & _ & _ & _ & _ & _ & _ & _ & Hadd & _) & H).
  apply (H two_pending "pending_approvals" pending_approvals_columns).
  - apply Hadd, Hadd, Hinit, H0.
  - unfold serial_tables. repeat constructor.
  - vm_compute; reflexivity.
Defined.

End ModelsFacts.

Module FileStorageFacts.
Import Posix FileStorage FileStorageSpec.

Lemma init_service w :
  exists r w', init w = (r, w') /\ (forall s, r = Ok s -> s = service).
Proof.
  unfold init. cbn.
  unfold bind at 1. destruct (os_makedirs _ w) as [[[]|e] w1]; [|eauto; by eexists _, _].
  unfold bind at 1. destruct (os_makedirs _ w1) as [[[]|e] w2]; cbn.
  - eexists _, _. split; [reflexivity|]. by intros s [= <-].
  - eexists _, _. split; [reflexivity|]. done.
Qed.

(** *** [save_results] and [get_results] *)

Lemma save_results_raises self workflow_id results_data w :
  exists e w',
    save_results self workflow_id results_data w
    = (Raise (RuntimeError "Failed to save results: " e), w').
Proof.
  unfold save_results. cbn.
  unfold try_except, with_open_write, json_dump, lift_fs, bind. cbn.
  destruct (open_write (fs w) _) as [[p fs']|e]; cbn; eauto.
Qed.

(** C2.  The module never imports [json]: [save_results] creates or
    empties the results file and then fails on the name [json], whatever
    the document, so it always raises [RuntimeError]; the file is left
    empty, and [get_results] fails on the same name.  No document makes
    the round trip. *)
Theorem save_results_missing_import :
  (forall self workflow_id results_data w,
     exists e w',
       save_results self workflow_id results_data w
       = (Raise (RuntimeError "Failed to save results: " e), w'))
  /\ let saved := save_results service "wf-1" (JDict [("a", JInt 1)]) started in
     saved.1 = Raise (RuntimeError "Failed to save results: " (NameError "json"))
     /\ read_file (fs saved.2) "/var/data/results/wf-1.json" = Some []
     /\ (get_results service "wf-1" saved.2).1
        = Raise (RuntimeError "Failed to read results: " (NameError "json")).
Proof.
  split; [apply save_results_raises|].
  cbv zeta. split; [vm_compute; reflexivity|].
  split; vm_compute; reflexivity.
Qed.

(** *** [save_file] *)

(** C6.  [os.makedirs] is called outside the [try] block of [save_file]:
    when the per-workflow directory cannot be created the [OSError]
    reaches the caller as it is, not wrapped in [RuntimeError]; nothing is
    logged and nothing is written.  So it is when the directory name is too
    long, and when a file stands where the directory should be (here the
    upload "x" that an earlier call with an empty workflow identifier put
    into the upload directory itself). *)
Theorem save_file_makedirs_unwrapped :
  (let saved :=
     save_file service {| filename := Some "wi.pdf"; file := 0 |} long_workflow_id started in
   saved.1 = Raise FileNameTooLong
   /\ logged saved.2 = []
   /\ entries saved.2 = entries started)
  /\ (let first := save_file service {| filename := Some "x"; file := 0 |} "" started in
      let saved := save_file service {| filename := Some "wi.pdf"; file := 0 |} "x" first.2 in
      first.1 = Ok "/var/data/uploads/x"
      /\ saved.1 = Raise FileExistsError
      /\ logged saved.2 = []
      /\ entries saved.2 = entries first.2).
Proof.
  cbv zeta. split.
  - split; [vm_compute; reflexivity|]. split; vm_compute; reflexivity.
  - split; [vm_compute; reflexivity|]. split; [vm_compute; reflexivity|].
    split; vm_compute; reflexivity.
Qed.

(** C8.  A file name that begins with a separator replaces the
    per-workflow directory in [os.path.join]: the upload is written to that
    absolute path, outside [uploads/<workflow_id>/], and that path is
    returned. *)
Theorem save_file_absolute_filename :
  let saved :=
    save_file service {| filename := Some "/tmp/evil.txt"; file := 0 |} "wf-1" started in
  saved.1 = Ok "/tmp/evil.txt"
  /\ read_file (fs saved.2) "/tmp/evil.txt" = Some upload_bytes
  /\ fs saved.2 !! ["var"; "data"; "uploads"; "wf-1"; "evil.txt"] = None
  /\ map fst (entries saved.2)
     = [["tmp"; "evil.txt"]; ["var"; "data"; "results"]; ["var"; "data"; "uploads"];
        ["var"]; ["tmp"]; ["var"; "data"]; ["var"; "data"; "uploads"; "wf-1"]].
Proof.
  cbv zeta. split; [vm_compute; reflexivity|].
  do 2 (split; [vm_compute; reflexivity|]). vm_compute; reflexivity.
Qed.

(** *** Paths made of plain names *)




Lemma no_sep_starts s : no_sep s -> starts_with_sep s = false.
Proof.
  destruct s as [|c s]; [done|]. intros [Hc _]%Forall_cons. by apply Ascii.eqb_neq.
Qed.

Lemma ends_with_sep_app a s :
  s <> "" -> ends_with_sep (a +:+ s) = ends_with_sep s.
Proof.
  intros Hs. induction a as [|c a IH]; [done|].
  simpl. rewrite IH. destruct (a +:+ s) eqn:E; [|done].
  destruct a; [|discriminate E]. simpl in E. done.
Qed.

Lemma no_sep_ends s : no_sep s -> ends_with_sep s = false.
Proof.
  unfold no_sep. induction s as [|c s IH]; [done|].
  intros [Hc Hs]%Forall_cons. cbn. destruct s; [by apply Ascii.eqb_neq|]. by apply IH.
Qed.

Lemma app_not_empty a s : s <> "" -> String.eqb (a +:+ s) "" = false.
Proof.
  intros Hs. apply String.eqb_neq. intros E. destruct a; [done|discriminate E].
Qed.

(** Joining a directory that does not end in a separator with a plain name. *)
Lemma path_join_plain a s :
  ends_with_sep a = false -> a <> "" -> plain_name s ->
  path_join a s = a +:+ String "/" s.
Proof.
  intros Ha Hne (_ & _ & _ & Hs & _). unfold path_join.
  rewrite (no_sep_starts s Hs), Ha.
  by destruct a.
Qed.



(** *** [save_file] with plain names *)

Lemma mkdirs_cons fs cur c cs :
  mkdirs fs cur (c :: cs) =
  match classify c with
  | Stay => mkdirs fs cur cs
  | Up => mkdirs fs (parent cur) cs
  | Down c =>
      if (NAME_MAX <? String.length c)%nat then Raise FileNameTooLong
      else
        match fs !! (cur ++ [c]) with
        | Some Dir => mkdirs fs (cur ++ [c]) cs
        | Some (File _) =>
            if forallb (fun c' => match classify c' with Stay => true | _ => false end) cs
            then Raise FileExistsError
            else Raise NotADirectoryError
        | None => mkdirs (<[cur ++ [c] := Dir]> fs) (cur ++ [c]) cs
        end
  end.
Proof. reflexivity. Qed.


Lemma classify_concrete :
  classify "" = Stay /\ classify "var" = Down "var" /\ classify "data" = Down "data"
  /\ classify "uploads" = Down "uploads" /\ classify "results" = Down "results".
Proof. repeat split; reflexivity. Qed.

Lemma mkdirs_stay fs cur cs : mkdirs fs cur ("" :: cs) = mkdirs fs cur cs.
Proof. reflexivity. Qed.

Lemma mkdirs_dir fs cur c cs :
  classify c = Down c -> (NAME_MAX <? String.length c)%nat = false ->
  fs !! (cur ++ [c]) = Some Dir ->
  mkdirs fs cur (c :: cs) = mkdirs fs (cur ++ [c]) cs.
Proof. intros Hc Hl Hd. by rewrite mkdirs_cons, Hc, Hl, Hd. Qed.

Lemma mkdirs_new fs cur c cs :
  classify c = Down c -> (NAME_MAX <? String.length c)%nat = false ->
  fs !! (cur ++ [c]) = None ->
  mkdirs fs cur (c :: cs) = mkdirs (<[cur ++ [c] := Dir]> fs) (cur ++ [c]) cs.
Proof. intros Hc Hl Hd. by rewrite mkdirs_cons, Hc, Hl, Hd. Qed.








Lemma join_upload_path wf name :
  plain_name wf -> plain_name name ->
  path_join (path_join "/var/data/uploads" wf) name = upload_path wf name.
Proof.
  intros Hwf Hname.
  rewrite (path_join_plain "/var/data/uploads" wf) by done.
  rewrite path_join_plain; [done| |done|done].
  change ("/var/data/uploads" +:+ String "/" wf) with ("/var/data/uploads/" +:+ wf).
  rewrite ends_with_sep_app by apply Hwf. apply no_sep_ends, Hwf.
Qed.




(** *** How failures are reported *)


(** X6.  [get_results] raises [FileNotFoundError] when the results file is not
    there, and [RuntimeError] with the cause in every other case. *)
Theorem get_results_outcomes (self : FileStorageService) (workflow_id : string) (w : world) :
  let results_file := path_join (results_dir self) (workflow_id +:+ ".json") in
  (exists_ (fs w) results_file = false
   /\ get_results self workflow_id w = (Raise FileNotFoundError, w))
  \/ (exists_ (fs w) results_file = true
      /\ exists e w',
           get_results self workflow_id w
           = (Raise (RuntimeError "Failed to read results: " e), w')).
Proof.
  cbv zeta. unfold get_results, os_path_join, os_path_exists.
  cbn [load_global String.eqb Ascii.eqb Bool.eqb bind ret].
  match goal with
  | |- context [exists_ (fs w) ?s] => destruct (exists_ (fs w) s) eqn:E
  end; [right|left]; (split; [done|]).
  - unfold try_except, with_open_read, lift_fs, json_load, logging_error, bind.
    cbn [fs streams logged load_global String.eqb Ascii.eqb Bool.eqb ret raise].
    match goal with
    | |- context [open_read (fs w) ?s] => destruct (open_read (fs w) s)
    end; cbn; eauto.
  - reflexivity.
Qed.






(** *** Uploads without a name, read twice, or closed *)





(** *** What [save_results] leaves on the disk *)





(** *** [FileStorageService()] *)

Lemma mkdirs_plain comps : forall fs cur,
  Forall plain_comp comps ->
  (forall n, (0 < n <= length comps)%nat -> not_a_file fs (cur ++ take n comps)) ->
  exists fs',
    mkdirs fs cur comps = Ok fs'
    /\ fs ⊆ fs'
    /\ (forall p, fs' !! p = fs !! p \/ fs' !! p = Some Dir)
    /\ (forall n, (0 < n <= length comps)%nat -> fs' !! (cur ++ take n comps) = Some Dir).
Proof.
  induction comps as [|c cs IH]; intros fs cur Hp Hfree.
  - exists fs. split; [done|]. split; [done|]. split; [by left|]. cbn. lia.
  - apply Forall_cons in Hp as [[Hc Hl] Hcs].
    assert (Hfree' : forall fs1 : filesystem,
              (forall p, fs1 !! p = fs !! p \/ fs1 !! p = Some Dir) ->
              forall n, (0 < n <= length cs)%nat ->
              not_a_file fs1 ((cur ++ [c]) ++ take n cs)).
    { intros fs1 H1 n Hn. rewrite <- app_assoc. cbn [app].
      assert (Hf : not_a_file fs (cur ++ take (S n) (c :: cs))) by (apply Hfree; cbn; lia).
      cbn [take] in Hf. unfold not_a_file in *.
      destruct (H1 (cur ++ c :: take n cs)) as [-> | ->]; [exact Hf|by right]. }
    assert (Hlater : forall fs' : filesystem, fs' !! (cur ++ [c]) = Some Dir ->
              (forall n, (0 < n <= length cs)%nat ->
                 fs' !! ((cur ++ [c]) ++ take n cs) = Some Dir) ->
              forall n, (0 < n <= length (c :: cs))%nat ->
              fs' !! (cur ++ take n (c :: cs)) = Some Dir).
    { intros fs' H1 H2 [|[|n]] Hn; [lia|exact H1|].
      cbn [take]. specialize (H2 (S n)). rewrite <- app_assoc in H2. cbn [app take] in H2.
      apply H2. cbn in Hn. lia. }
    destruct (Hfree 1%nat) as [Hn|Hd]; [cbn; lia| |]; cbn [take] in *.
    + rewrite mkdirs_new by done.
      assert (Hins : forall p, <[cur ++ [c] := Dir]> fs !! p = fs !! p
                               \/ <[cur ++ [c] := Dir]> fs !! p = Some Dir).
      { intros p. destruct (decide (p = cur ++ [c])) as [->|Hne].
        - right. apply lookup_insert_eq.
        - left. by apply lookup_insert_ne. }
      destruct (IH (<[cur ++ [c] := Dir]> fs) (cur ++ [c]) Hcs (Hfree' _ Hins))
        as (fs' & R & Sub & Ch & Dirs).
      exists fs'. split; [done|]. split.
      { etrans; [|exact Sub]. by apply insert_subseteq. }
      split.
      { intros p. destruct (Ch p) as [E|E]; [|by right]. rewrite E. apply Hins. }
      apply Hlater; [|done].
      eapply lookup_weaken; [apply lookup_insert_eq|exact Sub].
    + rewrite mkdirs_dir by done.
      destruct (IH fs (cur ++ [c]) Hcs (Hfree' fs (fun p => or_introl eq_refl)))
        as (fs' & R & Sub & Ch & Dirs).
      exists fs'. split; [done|]. split; [done|]. split; [done|].
      apply Hlater; [|done]. eapply lookup_weaken; [exact Hd|exact Sub].
Qed.

Lemma mkdirs_extends comps : forall fs cur fs',
  mkdirs fs cur comps = Ok fs' -> fs ⊆ fs'.
Proof.
  induction comps as [|c cs IH]; intros fs cur fs'; [by intros [= <-]|].
  rewrite mkdirs_cons. destruct (classify c) as [| |c']; [apply IH|apply IH|].
  destruct (_ <? _)%nat; [done|].
  destruct (fs !! (cur ++ [c'])) as [[|old]|] eqn:E.
  - apply IH.
  - by destruct (forallb _ cs).
  - intros H. etrans; [|exact (IH _ _ _ H)]. by apply insert_subseteq.
Qed.

Lemma mkdirs_present comps : forall fs cur,
  Forall plain_comp comps ->
  (forall n, (0 < n <= length comps)%nat -> fs !! (cur ++ take n comps) = Some Dir) ->
  mkdirs fs cur comps = Ok fs.
Proof.
  induction comps as [|c cs IH]; intros fs cur Hp Hd; [done|].
  apply Forall_cons in Hp as [[Hc Hl] Hcs].
  rewrite mkdirs_dir; [|done|done|apply (Hd 1%nat); cbn; lia].
  apply IH; [done|]. intros n Hn. rewrite <- app_assoc. apply (Hd (S n)). cbn. lia.
Qed.

Lemma mkdirs_blocked comps : forall fs cur n data,
  Forall plain_comp comps ->
  fs !! (cur ++ take (S n) comps) = Some (File data) ->
  (n < length comps)%nat ->
  exists e, mkdirs fs cur comps = Raise e.
Proof.
  induction comps as [|c cs IH]; intros fs cur n data Hp Hf Hn; [cbn in Hn; lia|].
  apply Forall_cons in Hp as [[Hc Hl] Hcs]. rewrite mkdirs_cons, Hc, Hl.
  cbn [take] in Hf.
  destruct n as [|n].
  - rewrite take_0 in Hf. rewrite Hf. destruct (forallb _ cs); eauto.
  - assert (Hne : cur ++ c :: take (S n) cs <> cur ++ [c]).
    { intros E. apply app_inv_head in E. destruct cs; [cbn in Hn; lia|discriminate E]. }
    destruct (fs !! (cur ++ [c])) as [[|old]|] eqn:E.
    + apply (IH fs (cur ++ [c]) n data); [done| |cbn in Hn; lia].
      by rewrite <- app_assoc.
    + destruct (forallb _ cs); eauto.
    + apply (IH _ (cur ++ [c]) n data); [done| |cbn in Hn; lia].
      rewrite <- app_assoc. cbn [app]. by rewrite lookup_insert_ne.
Qed.

Lemma plain_comps :
  Forall plain_comp ["var"; "data"; "uploads"] /\ Forall plain_comp ["var"; "data"; "results"].
Proof. split; repeat constructor. Qed.

Lemma init_unfold w :
  init w =
  match mkdirs (fs w) [] ["var"; "data"; "uploads"] with
  | Raise e => (Raise e, w)
  | Ok fs1 =>
      match mkdirs fs1 [] ["var"; "data"; "results"] with
      | Raise e => (Raise e, World fs1 (streams w) (logged w))
      | Ok fs2 => (Ok service, World fs2 (streams w) (logged w))
      end
  end.
Proof.
  unfold init, os_path_join, os_makedirs, lift_fs, bind, makedirs.
  cbn [load_global String.eqb Ascii.eqb Bool.eqb ret].
  change (split_sep (path_join "/var/data" "uploads")) with [""; "var"; "data"; "uploads"].
  change (split_sep (path_join "/var/data" "results")) with [""; "var"; "data"; "results"].
  rewrite mkdirs_stay.
  destruct (mkdirs (fs w) [] ["var"; "data"; "uploads"]) as [fs1|e]; [|done].
  cbn [fs streams logged]. rewrite mkdirs_stay.
  destruct (mkdirs fs1 [] ["var"; "data"; "results"]) as [fs2|e]; done.
Qed.

(** X25.  Starting the service fails exactly when a file stands where it needs
    a directory ([/var], [/var/data], the upload or the results directory).
    Otherwise it returns the service with its three paths; the upload and
    the results directory then exist, every entry that was on the disk is
    as before, what is new is a directory, and starting the service again
    changes nothing. *)
Theorem init_makes_directories (w : world) :
  (blocked (fs w) -> exists e w', init w = (Raise e, w'))
  /\ (~ blocked (fs w) ->
      exists w',
        init w = (Ok service, w')
        /\ uploads_ready (fs w')
        /\ results_ready (fs w')
        /\ fs w ⊆ fs w'
        /\ (forall p, fs w' !! p = fs w !! p \/ fs w' !! p = Some Dir)
        /\ streams w' = streams w
        /\ logged w' = logged w
        /\ init w' = (Ok service, w')).
Proof.
  destruct plain_comps as [Pu Pr]. rewrite init_unfold. split.
  - intros (p & data & Hp & Hf). unfold uploads, results in Hp.
    rewrite !elem_of_cons, elem_of_nil in Hp.
    assert (Hu : (exists n, (n < 3)%nat
                    /\ fs w !! ([] ++ take (S n) ["var"; "data"; "uploads"]) = Some (File data))
                 \/ fs w !! ["var"; "data"; "results"] = Some (File data)).
    { destruct Hp as [->|[->|[->|[->|[]]]]];
        [left; exists 0%nat|left; exists 1%nat|left; exists 2%nat|right];
        first [exact Hf | split; [lia|exact Hf]]. }
    destruct Hu as [(n & Hn & Hu)|Hres].
    + destruct (mkdirs_blocked _ _ _ _ _ Pu Hu Hn) as [e ->]. eauto.
    + destruct (mkdirs (fs w) [] ["var"; "data"; "uploads"]) as [fs1|e] eqn:E1; [|eauto].
      assert (Hres1 : fs1 !! ([] ++ take 3 ["var"; "data"; "results"]) = Some (File data)).
      { eapply lookup_weaken; [exact Hres|]. by eapply mkdirs_extends. }
      destruct (mkdirs_blocked _ _ _ 2%nat _ Pr Hres1) as [e ->]; [cbn; lia|]. eauto.
  - intros Hnb.
    assert (Hnf : forall p, p ∈ [["var"]; ["var"; "data"]; uploads; results] ->
                    not_a_file (fs w) p).
    { intros p Hp. unfold not_a_file. destruct (fs w !! p) as [[|data]|] eqn:E; auto.
      exfalso. apply Hnb. by exists p, data. }
    destruct (mkdirs_plain ["var"; "data"; "uploads"] (fs w) []) as (fs1 & R1 & S1 & C1 & D1);
      [done| |].
    { intros [|[|[|[|n]]]] Hn; cbn in Hn; try lia; apply Hnf; unfold uploads, results; cbn [app]; repeat constructor. }
    destruct (mkdirs_plain ["var"; "data"; "results"] fs1 []) as (fs2 & R2 & S2 & C2 & D2);
      [done| |].
    { intros n Hn. unfold not_a_file.
      destruct (C1 ([] ++ take n ["var"; "data"; "results"])) as [-> | ->]; [|by right].
      destruct n as [|[|[|[|n]]]]; cbn in Hn; try lia; apply Hnf; unfold uploads, results; cbn [app]; repeat constructor. }
    rewrite R1, R2. eexists. split; [reflexivity|]. cbn [fs streams logged].
    assert (Hup : uploads_ready fs2).
    { repeat split; (eapply lookup_weaken; [|exact S2]);
        [apply (D1 1%nat)|apply (D1 2%nat)|apply (D1 3%nat)]; cbn; lia. }
    assert (Hres : results_ready fs2).
    { repeat split; [apply (D2 1%nat)|apply (D2 2%nat)|apply (D2 3%nat)]; cbn; lia. }
    split; [exact Hup|]. split; [exact Hres|].
    split; [by etrans|]. split.
    { intros p. destruct (C2 p) as [E|E]; [|by right]. rewrite E. apply C1. }
    split; [done|]. split; [done|].
    rewrite init_unfold. cbn [fs streams logged].
    destruct Hup as (U1 & U2 & U3), Hres as (_ & _ & U4).
    rewrite (mkdirs_present ["var"; "data"; "uploads"] fs2 []); [|done|].
    + rewrite (mkdirs_present ["var"; "data"; "results"] fs2 []); [done|done|].
      intros [|[|[|[|n]]]] Hn; cbn in Hn; try lia; done.
    + intros [|[|[|[|n]]]] Hn; cbn in Hn; try lia; done.
Qed.

(** *** The further theorems on a concrete disk *)







Lemma disk_not_blocked : ~ blocked (fs disk).
Proof.
  intros (p & data & Hp & Hf). unfold uploads, results in Hp.
  rewrite !elem_of_cons, elem_of_nil in Hp.
  destruct Hp as [->|[->|[->|[->|[]]]]]; revert Hf; vm_compute; discriminate.
Qed.

Lemma init_makes_directories_witness :
  exists w',
    init disk = (Ok service, w')
    /\ uploads_ready (fs w')
    /\ results_ready (fs w')
    /\ init w' = (Ok service, w').
Proof.
  destruct (init_makes_directories disk) as [_ H].
  destruct (H disk_not_blocked) as (w' & H1 & H2 & H3 & _ & _ & _ & _ & H4).
  exists w'. auto.
Defined.

End FileStorageFacts.

